(** * Stockfish Docker client: the UCI session handler and its line parser

    A shallow embedding of [python_client/client.py].  Python [str] values
    are modelled as [string], one [ascii] per code point, so the text the
    model ranges over is the Latin-1 part of Unicode; Python [int] is [Z];
    Python [float] is IEEE-754 binary64, taken from the [SpecFloat]
    specification of the Standard Library; an exception that leaves a
    function is the [Raise] case of [result]. *)

From Stdlib Require Import List String Ascii ZArith NArith Bool Lia.
From Stdlib Require Import DecimalString.
From Stdlib Require DecimalFacts DecimalPos.
From Stdlib Require Import Floats.SpecFloat.
Import ListNotations.

Open Scope string_scope.
Open Scope Z_scope.

(** ** Python run-time values used by the client *)

Module Py.

(** Exceptions that can leave the client's functions. *)
Inductive exn : Type :=
| RuntimeError (msg : string)
| OverflowError (msg : string)
| ZeroDivisionError (msg : string)
| FileNotFoundError
| CalledProcessError
| BrokenPipeError
| TimeoutExpired
| OSError (msg : string).

Inductive result (A : Type) : Type :=
| Ok (a : A)
| Raise (e : exn).

Arguments Ok {A} a.
Arguments Raise {A} e.

Definition bind {A B : Type} (m : result A) (k : A -> result B) : result B :=
  match m with
  | Ok a => k a
  | Raise e => Raise e
  end.

(** *** Characters *)

Definition code (c : ascii) : N := N_of_ascii c.

(** [str.isspace] on one code point below 256 (what [split] and [strip]
    without argument look at). *)
Definition isspace (c : ascii) : bool :=
  let n := code c in
  ((9 <=? n) && (n <=? 13) || (28 <=? n) && (n <=? 32)
   || (n =? 133) || (n =? 160))%N.

(** [Py_ISSPACE], the ASCII-only test used inside [int()] and [float()]. *)
Definition isspace_ascii (c : ascii) : bool :=
  let n := code c in ((9 <=? n) && (n <=? 13) || (n =? 32))%N.

Definition isdigit (c : ascii) : bool :=
  let n := code c in ((48 <=? n) && (n <=? 57))%N.

Definition digit_value (c : ascii) : Z := Z.of_N (code c) - 48.

(** [str.lower] on one code point below 256. *)
Definition lower_char (c : ascii) : ascii :=
  let n := code c in
  if ((65 <=? n) && (n <=? 90)
      || (192 <=? n) && (n <=? 222) && negb (n =? 215))%N
  then ascii_of_N (n + 32) else c.

(** *** Strings *)

Fixpoint lower (s : string) : string :=
  match s with
  | "" => ""
  | String c r => String (lower_char c) (lower r)
  end.

Fixpoint lstrip_by (sp : ascii -> bool) (s : string) : string :=
  match s with
  | "" => ""
  | String c r => if sp c then lstrip_by sp r else s
  end.

Fixpoint rstrip_by (sp : ascii -> bool) (s : string) : string :=
  match s with
  | "" => ""
  | String c r =>
      match rstrip_by sp r with
      | "" => if sp c then "" else String c ""
      | r' => String c r'
      end
  end.

(** [s.strip()] *)
Definition strip (s : string) : string := rstrip_by isspace (lstrip_by isspace s).

(** [s.split()]: the maximal runs of non-whitespace characters, in order. *)
Fixpoint split (s : string) : list string :=
  match s with
  | "" => []
  | String c r =>
      if isspace c then split r
      else
        match r with
        | "" => [String c ""]
        | String c' _ =>
            if isspace c' then String c "" :: split r
            else
              match split r with
              | w :: ws => String c w :: ws
              | [] => [String c ""]
              end
        end
  end.

(** [s.startswith(p)] *)
Definition startswith (s p : string) : bool := String.prefix p s.

(** [sep.join(parts)] *)
Fixpoint join (sep : string) (parts : list string) : string :=
  match parts with
  | [] => ""
  | [p] => p
  | p :: ps => p ++ sep ++ join sep ps
  end.

(** [x in l] for a list of strings. *)
Definition contains (x : string) (l : list string) : bool :=
  existsb (String.eqb x) l.

(** [l.index(x)]; [None] stands for the [ValueError] of an absent item. *)
Fixpoint index (x : string) (l : list string) : option nat :=
  match l with
  | [] => None
  | y :: r => if String.eqb y x then Some 0%nat
              else option_map S (index x r)
  end.

(** [l[i]] for [i >= 0]; [None] stands for [IndexError]. *)
Definition item (l : list string) (i : nat) : option string := nth_error l i.

(** The decimal form of an [int]: what [str(n)] and the [{n}] of an
    f-string give whenever they give a string (see [str_int] below for the
    digit limit). *)
Definition str_of_int (n : Z) : string := NilZero.string_of_int (Z.to_int n).

(** *** [int(s)] for a string

    CPython maps Unicode white space to a blank, skips ASCII white space at
    both ends, reads an optional sign and then decimal digits, where single
    underscores may stand between digits.  A literal of more digits than
    the interpreter's limit is refused.  [None] stands for [ValueError]. *)

(** [sys.int_info.default_max_str_digits] and the threshold under which the
    limit is never applied. *)
Definition int_max_str_digits : nat := 4300.
Definition int_str_digits_threshold : nat := 640.

(** The number of decimal digits of [n], its sign aside. *)
Definition int_digits (n : Z) : nat :=
  match n with
  | Z0 => 1%nat
  | Zpos p | Zneg p => Decimal.nb_digits (Pos.to_uint p)
  end.

(** [str(n)] and the [{n}] of an f-string, for an [int]: the conversion is
    refused, with [ValueError], for more digits than the limit.  [None]
    stands for [ValueError]. *)
Definition str_int (n : Z) : option string :=
  if (int_str_digits_threshold <? int_digits n)%nat
     && (int_max_str_digits <? int_digits n)%nat
  then None else Some (str_of_int n).

Fixpoint space_to_ascii (s : string) : string :=
  match s with
  | "" => ""
  | String c r =>
      String (if (128 <=? code c)%N && isspace c then " "%char else c)
             (space_to_ascii r)
  end.

Definition strip_ascii (s : string) : string :=
  rstrip_by isspace_ascii (lstrip_by isspace_ascii s).

(** The digit loop of [long_from_string_base]: [prev] is the character just
    read, [acc] the value and [n] the number of digits so far. *)
Fixpoint scan_digits (s : string) (prev : ascii) (acc : Z) (n : nat)
  : option (Z * nat) :=
  match s with
  | "" => if Ascii.eqb prev "_" then None else Some (acc, n)
  | String c r =>
      if Ascii.eqb c "_" then
        if Ascii.eqb prev "_" then None else scan_digits r c acc n
      else if isdigit c then scan_digits r c (10 * acc + digit_value c) (S n)
      else None
  end.

Definition int_of_digits (s : string) : option Z :=
  match s with
  | "" => None
  | String c _ =>
      if Ascii.eqb c "_" then None
      else
        match scan_digits s "000" 0 0 with
        | Some (v, n) =>
            if (int_str_digits_threshold <? n)%nat && (int_max_str_digits <? n)%nat
            then None else Some v
        | None => None
        end
  end.

Definition int_of_str (s : string) : option Z :=
  match strip_ascii (space_to_ascii s) with
  | String "+" r => int_of_digits r
  | String "-" r => option_map Z.opp (int_of_digits r)
  | t => int_of_digits t
  end.

(** *** Floats: IEEE-754 binary64 *)

Definition prec : Z := 53.
Definition emax : Z := 1024.

Definition float : Type := spec_float.

Definition is_finite (x : float) : bool :=
  match x with
  | S754_zero _ | S754_finite _ _ _ => true
  | S754_infinity _ | S754_nan => false
  end.

(** [float(n)] for an [int]: the nearest double, ties to even;
    [OverflowError] when that is out of range. *)
Definition float_of_int (n : Z) : result float :=
  match binary_normalize prec emax n 0 false with
  | S754_infinity _ => Raise (OverflowError "int too large to convert to float")
  | x => Ok x
  end.

Definition is_zero (x : float) : bool :=
  match x with S754_zero _ => true | _ => false end.

(** [x / y] on two floats. *)
Definition float_truediv (x y : float) : result float :=
  if is_zero y then Raise (ZeroDivisionError "float division by zero")
  else Ok (SFdiv prec emax x y).

(** [n / y] for an [int] [n] and a float [y]: [n] is converted first. *)
Definition int_truediv_float (n : Z) (y : float) : result float :=
  bind (float_of_int n) (fun x => float_truediv x y).

(** The literal [100.0]. *)
Definition float_100 : float := S754_finite false 7036874417766400 (-46).

(** The literal [0.0]. *)
Definition float_0 : float := S754_zero false.

(** *** [float(s)] for a string

    Underscores are dropped where they stand between two digits, ASCII
    white space is skipped at both ends, and what is left is a signed
    decimal literal, [inf], [infinity] or [nan]; the decimal value is
    rounded to the nearest double, ties to even, and overflows to an
    infinity.  [None] stands for [ValueError]. *)

Fixpoint drop_underscores (s : string) (prev : ascii) : option string :=
  match s with
  | "" => if Ascii.eqb prev "_" then None else Some ""
  | String c r =>
      if Ascii.eqb c "_" then
        if isdigit prev then drop_underscores r c else None
      else if Ascii.eqb prev "_" && negb (isdigit c) then None
      else option_map (String c) (drop_underscores r c)
  end.

Fixpoint span_digits (s : string) : string * string :=
  match s with
  | "" => ("", "")
  | String c r =>
      if isdigit c then let (d, t) := span_digits r in (String c d, t)
      else ("", s)
  end.

Fixpoint digits_value (s : string) (acc : Z) : Z :=
  match s with
  | "" => acc
  | String c r => digits_value r (10 * acc + digit_value c)
  end.

Definition split_sign (s : string) : bool * string :=
  match s with
  | String "+" r => (false, r)
  | String "-" r => (true, r)
  | _ => (false, s)
  end.

(** A decimal literal [ddd.ddd e sddd] as the pair [(m, e)] of the value
    [m * 10 ^ e]. *)
Definition parse_decimal (s : string) : option (Z * Z) :=
  let (ip, r1) := span_digits s in
  let (fp, r2) :=
    match r1 with
    | String "." t => span_digits t
    | _ => ("", r1)
    end in
  if (String.length ip + String.length fp =? 0)%nat then None
  else
    let m := digits_value (ip ++ fp) 0 in
    let scale := Z.of_nat (String.length fp) in
    match r2 with
    | "" => Some (m, - scale)
    | String c t =>
        if Ascii.eqb c "e" || Ascii.eqb c "E" then
          let (neg, t') := split_sign t in
          let (ep, r3) := span_digits t' in
          match ep, r3 with
          | String _ _, "" =>
              let x := digits_value ep 0 in
              Some (m, (if neg then - x else x) - scale)
          | _, _ => None
          end
        else None
    end.

(** The double nearest to [m * 10 ^ e], for [m >= 0], with sign [neg]. *)
Definition float_of_decimal (neg : bool) (m e : Z) : float :=
  match m with
  | Zpos p =>
      if 0 <=? e then binary_round prec emax neg (Z.to_pos (m * 10 ^ e)) 0
      else
        let '(q, e', l) := SFdiv_core_binary prec emax m 0 (10 ^ (- e)) 0 in
        binary_round_aux prec emax neg q e' l
  | _ => S754_zero neg
  end.

Definition parse_inf_or_nan (neg : bool) (s : string) : option float :=
  let t := lower s in
  if String.eqb t "inf" || String.eqb t "infinity" then Some (S754_infinity neg)
  else if String.eqb t "nan" then Some S754_nan
  else None.

Definition float_of_str (s : string) : option float :=
  match drop_underscores (space_to_ascii s) "000" with
  | None => None
  | Some t =>
      let (neg, body) := split_sign (strip_ascii t) in
      match parse_decimal body with
      | Some (m, e) => Some (float_of_decimal neg m e)
      | None => parse_inf_or_nan neg body
      end
  end.

End Py.

Import Py.

(** ** Data model ([client.py], the two frozen dataclasses) *)

(** [score_value] is annotated [float]; at run time it holds a float for
    [cp] and other score kinds and an [int] for [mate]. *)
Inductive number : Type :=
| Int (n : Z)
| Float (x : float).

Record Evaluation : Type := {
  score_type : string;
  score_value : number;
  depth : Z
}.

Record Prediction : Type := {
  bestmove : string;
  ponder : option string;
  evaluation : Evaluation
}.

(** ** [StockfishDockerClient._parse_evaluation] *)

(** The first [try] block: the two tokens after the first [score]. *)
Definition score_tokens (tokens : list string) : option (string * string) :=
  match index "score" tokens with
  | None => None
  | Some score_index =>
      match item tokens (score_index + 1), item tokens (score_index + 2) with
      | Some score_type, Some score_value => Some (score_type, score_value)
      | _, _ => None
      end
  end.

(** The [depth] block: 0 unless the token after the first [depth] is an
    integer literal. *)
Definition depth_of_tokens (tokens : list string) : Z :=
  if contains "depth" tokens then
    match index "depth" tokens with
    | None => 0
    | Some depth_index =>
        match item tokens (depth_index + 1) with
        | None => 0
        | Some depth_value =>
            match int_of_str depth_value with
            | Some d => d
            | None => 0
            end
        end
    end
  else 0.

(** The last [try] block; only [ValueError] is caught there. *)
Definition evaluation_of (score_type score_value : string) (depth : Z)
  : result (option Evaluation) :=
  if String.eqb score_type "cp" then
    match int_of_str score_value with
    | None => Ok None
    | Some v =>
        bind (int_truediv_float v float_100) (fun x =>
        Ok (Some {| score_type := score_type; score_value := Float x;
                    depth := depth |}))
    end
  else if String.eqb score_type "mate" then
    match int_of_str score_value with
    | None => Ok None
    | Some v =>
        Ok (Some {| score_type := score_type; score_value := Int v;
                    depth := depth |})
    end
  else
    match float_of_str score_value with
    | None => Ok None
    | Some x =>
        Ok (Some {| score_type := score_type; score_value := Float x;
                    depth := depth |})
    end.

Definition _parse_evaluation (raw_line : string) : result (option Evaluation) :=
  let tokens := split raw_line in
  if negb (contains "score" tokens) then Ok None
  else
    match score_tokens tokens with
    | None => Ok None
    | Some (score_type, score_value) =>
        evaluation_of score_type score_value (depth_of_tokens tokens)
    end.

(** ** The engine process as the client sees it

    What [docker exec -i <container> <engine>] does is outside the program;
    a [process] records the answers it gives to the calls the client makes
    on the [Popen] object.  The pipes are opened with [text=True]: the
    record describes the sessions in which what the engine prints decodes
    as text, so that the iteration yields lines and [communicate] returns or
    runs out of time; a [UnicodeDecodeError] from either is outside it. *)

Record process : Type := {
  (** [process.stdin is not None], [process.stdout is not None] *)
  stdin_present : bool;
  stdout_present : bool;
  (** how many [write]/[flush] calls on [stdin] succeed before the pipe is
      broken; [None]: all of them *)
  stdin_budget : option nat;
  (** the lines iterating over [process.stdout] yields, up to end of file *)
  stdout_lines : list string;
  (** what [communicate(timeout=5)] finds: the return code and the text of
      standard error, or [None] when the deadline passes first *)
  exit : option (Z * string);
  (** what [poll()] finds when [communicate] has not returned: [None]
      while the process is running, or the return code it exited with *)
  poll_on_error : option Z
}.

(** [poll()] finds the process running when [communicate] has not
    returned. *)
Definition running_on_error (p : process) : bool :=
  match poll_on_error p with
  | None => true
  | Some _ => false
  end.

(** What the session did to the process. *)
Record io : Type := {
  written : list string;   (** arguments of the [stdin.write] calls that
                               returned, in order *)
  stdin_calls : nat;       (** [write] and [flush] calls made so far *)
  returncode : option Z;   (** [process.returncode] *)
  killed : bool            (** [process.kill()] was called *)
}.

Definition io_start : io :=
  {| written := []; stdin_calls := 0; returncode := None; killed := false |}.

(** Computations on the process: state passing, with exceptions. *)
Definition M (A : Type) : Type := io -> result A * io.

Definition ret {A : Type} (a : A) : M A := fun w => (Ok a, w).

Definition raise {A : Type} (e : exn) : M A := fun w => (Raise e, w).

Definition mbind {A B : Type} (m : M A) (k : A -> M B) : M B :=
  fun w =>
    match m w with
    | (Ok a, w') => k a w'
    | (Raise e, w') => (Raise e, w')
    end.

Definition lift {A : Type} (r : result A) : M A := fun w => (r, w).

(** [try: body finally: cleanup] *)
Definition finally {A : Type} (body : M A) (cleanup : M unit) : M A :=
  fun w =>
    match body w with
    | (Ok a, w') =>
        match cleanup w' with
        | (Ok _, w'') => (Ok a, w'')
        | (Raise e, w'') => (Raise e, w'')
        end
    | (Raise e, w') =>
        match cleanup w' with
        | (Ok _, w'') => (Raise e, w'')
        | (Raise e', w'') => (Raise e', w'')
        end
    end.

Declare Scope io_scope.
Delimit Scope io_scope with io.
Notation "x <- m ;; k" := (mbind m (fun x => k))
  (at level 61, m at next level, right associativity) : io_scope.
Notation "m ;; k" := (mbind m (fun _ => k))
  (at level 61, right associativity) : io_scope.
Notation "' pat <- m ;; k" := (mbind m (fun x => match x with pat => k end))
  (at level 61, pat pattern, m at next level, right associativity) : io_scope.

Section Process.

Variable p : process.

Definition stdin_open (w : io) : bool :=
  match stdin_budget p with
  | None => true
  | Some n => (stdin_calls w <? n)%nat
  end.

(** [process.stdin.write(text)] *)
Definition stdin_write (text : string) : M unit :=
  fun w =>
    let w' := {| written := written w; stdin_calls := S (stdin_calls w);
                 returncode := returncode w; killed := killed w |} in
    if stdin_open w then
      (Ok tt, {| written := written w ++ [text]; stdin_calls := S (stdin_calls w);
                 returncode := returncode w; killed := killed w |})
    else (Raise BrokenPipeError, w').

(** [process.stdin.flush()] *)
Definition stdin_flush : M unit :=
  fun w =>
    let w' := {| written := written w; stdin_calls := S (stdin_calls w);
                 returncode := returncode w; killed := killed w |} in
    if stdin_open w then (Ok tt, w') else (Raise BrokenPipeError, w').

(** [process.communicate(timeout=5)]: the text of standard error. *)
Definition communicate : M string :=
  fun w =>
    match exit p with
    | Some (rc, err) =>
        (Ok err, {| written := written w; stdin_calls := stdin_calls w;
                    returncode := Some rc; killed := killed w |})
    | None => (Raise TimeoutExpired, w)
    end.

(** [if process.poll() is None: process.kill()].  [poll()] answers with
    the return code already known, or asks the system and records the code
    of a process it finds gone. *)
Definition kill_if_running : M unit :=
  fun w =>
    match returncode w with
    | Some _ => (Ok tt, w)
    | None =>
        match poll_on_error p with
        | None =>
            (Ok tt, {| written := written w; stdin_calls := stdin_calls w;
                       returncode := None; killed := true |})
        | Some rc =>
            (Ok tt, {| written := written w; stdin_calls := stdin_calls w;
                       returncode := Some rc; killed := killed w |})
        end
    end.

End Process.

(** ** [StockfishDockerClient._query_engine] *)

(** [l.append(x)] *)
Definition append (l : list string) (x : string) : list string := (l ++ [x])%list.

(** Lines 88-101: the command script, the depth in its decimal form
    ([build_commands] below has the depth that line 101 refuses to
    render). *)
Definition commands_of (fen : string) (depth : Z) (moves : option (list string))
  : list string :=
  let commands := ["uci"; "isready"; "ucinewgame"] in
  let moves_payload :=
    match moves with
    | Some ((_ :: _) as l) => Some l
    | _ => None
    end in
  let commands :=
    match moves_payload with
    | Some payload =>
        if String.eqb fen "startpos" then
          append commands ("position startpos moves " ++ join " " payload)
        else
          append commands ("position fen " ++ fen ++ " moves " ++ join " " payload)
    | None =>
        if String.eqb fen "startpos" then append commands "position startpos"
        else append commands ("position fen " ++ fen)
    end in
  append commands ("go depth " ++ str_of_int depth).

(** The four variables the read loop updates. *)
Record loop_state : Type := {
  ls_bestmove : option string;
  ls_ponder : option string;
  ls_evaluation : option Evaluation;
  best_depth : Z
}.

Definition loop_start : loop_state :=
  {| ls_bestmove := None; ls_ponder := None; ls_evaluation := None;
     best_depth := -1 |}.

Inductive control : Type := Continue | Break.

(** One turn of [for raw_line in process.stdout]. *)
Definition loop_body (st : loop_state) (raw_line : string)
  : result (loop_state * control) :=
  let line := strip raw_line in
  if String.eqb line "" then Ok (st, Continue)
  else if startswith line "info" then
    bind (_parse_evaluation line) (fun parsed =>
    match parsed with
    | Some e =>
        if best_depth st <=? depth e then
          Ok ({| ls_bestmove := ls_bestmove st; ls_ponder := ls_ponder st;
                 ls_evaluation := Some e; best_depth := depth e |}, Continue)
        else Ok (st, Continue)
    | None => Ok (st, Continue)
    end)
  else if startswith line "bestmove" then
    let tokens := split line in
    let bestmove :=
      if (2 <=? List.length tokens)%nat then item tokens 1 else ls_bestmove st in
    let ponder :=
      if contains "ponder" tokens then
        match index "ponder" tokens with
        | Some ponder_index =>
            if (ponder_index + 1 <? List.length tokens)%nat
            then item tokens (ponder_index + 1) else ls_ponder st
        | None => ls_ponder st
        end
      else ls_ponder st in
    Ok ({| ls_bestmove := bestmove; ls_ponder := ponder;
           ls_evaluation := ls_evaluation st; best_depth := best_depth st |},
        Break)
  else Ok (st, Continue).

(** The loop: the state it ends in and the lines it left unread. *)
Fixpoint read_loop (lines : list string) (st : loop_state)
  : result (loop_state * list string) :=
  match lines with
  | [] => Ok (st, [])
  | raw_line :: rest =>
      bind (loop_body st raw_line) (fun '(st', c) =>
      match c with
      | Break => Ok (st', rest)
      | Continue => read_loop rest st'
      end)
  end.

Section Session.

Variable p : process.

Open Scope io_scope.

(** Lines 125-127: the script is written, then flushed. *)
Fixpoint write_commands (commands : list string) : M unit :=
  match commands with
  | [] => ret tt
  | command :: rest =>
      stdin_write p (command ++ String "010" "") ;; write_commands rest
  end.

Definition send_script (commands : list string) : M unit :=
  write_commands commands ;; stdin_flush p.

(** Lines 129-158: the read loop, [quit], and the bounded wait. *)
Definition converse : M (loop_state * string) :=
  '(st, _) <- lift (read_loop (stdout_lines p) loop_start) ;;
  stdin_write p ("quit" ++ String "010" "") ;;
  stdin_flush p ;;
  stderr_output <- communicate p ;;
  ret (st, stderr_output).

(** Line 170: the evaluation reported when none was tracked. *)
Definition fallback_evaluation (depth : Z) : Evaluation :=
  {| score_type := "cp"; score_value := Float float_0; depth := depth |}.

(** [process.returncode not in (0, None)] *)
Definition exit_failed (rc : option Z) : bool :=
  match rc with
  | Some c => negb (c =? 0)
  | None => false
  end.

(** Lines 163-172: the checks after the [try] block. *)
Definition conclude (depth : Z) (st : loop_state) (stderr_output : string)
  : M Prediction :=
  fun w =>
    if exit_failed (returncode w) then
      (Raise (RuntimeError ("Stockfish process failed: " ++ strip stderr_output)), w)
    else
      match ls_bestmove st with
      | None => (Raise (RuntimeError "Stockfish did not report a best move"), w)
      | Some bestmove =>
          let evaluation :=
            match ls_evaluation st with
            | None => fallback_evaluation depth
            | Some e => e
            end in
          (Ok {| bestmove := bestmove; ponder := ls_ponder st;
                 evaluation := evaluation |}, w)
      end.

(** Lines 121-172, for a process that was started. *)
Definition run_session (fen : string) (depth : Z) (moves : option (list string))
  : M Prediction :=
  if negb (stdin_present p) || negb (stdout_present p) then
    raise (RuntimeError "Failed to open Stockfish stdin/stdout streams")
  else
    '(st, stderr_output) <-
      finally (send_script (commands_of fen depth moves) ;; converse)
              (kill_if_running p) ;;
    conclude depth st stderr_output.

End Session.

(** [_query_engine]: [popen] is what [subprocess.Popen] does, a started
    process or an exception.  The result comes with the record of what was
    done to the process.  The call is followed from the point where
    [Popen] has answered, so for a request whose script lines 88-101 have
    built. *)
Definition _query_engine (popen : result process)
    (fen : string) (depth : Z) (moves : option (list string))
  : result Prediction * io :=
  match popen with
  | Raise FileNotFoundError =>
      (Raise (RuntimeError "Docker is not installed or not found in PATH"), io_start)
  | Raise e => (Raise e, io_start)
  | Ok p => run_session p fen depth moves io_start
  end.

(** [predict_next_move] and [analyze_position] *)
Definition predict_next_move (popen : result process)
    (fen : string) (depth : Z) (moves : option (list string))
  : result Prediction :=
  fst (_query_engine popen fen depth moves).

Definition analyze_position (popen : result process)
    (fen : string) (depth : Z) (moves : option (list string))
  : result Evaluation :=
  bind (fst (_query_engine popen fen depth moves)) (fun prediction =>
  Ok (evaluation prediction)).

(** ** [StockfishDockerClient.is_service_ready]

    [inspect] is what [subprocess.run(["docker", "inspect", ...],
    check=True)] does: the captured standard output, or an exception. *)
Definition is_service_ready (inspect : result string) : result bool :=
  match inspect with
  | Raise CalledProcessError => Ok false
  | Raise FileNotFoundError => Ok false
  | Raise e => Raise e
  | Ok stdout => Ok (String.eqb (lower (strip stdout)) "true")
  end.

(** ** Notions the statements below are phrased in *)

(** The pipe to the engine takes at least [n] [write]/[flush] calls. *)
Definition stdin_accepts (p : process) (n : nat) : Prop :=
  match stdin_budget p with
  | None => True
  | Some k => (n <= k)%nat
  end.

(** The [position] command as the specification words it, for a base
    position and a possibly empty sequence of moves. *)
Definition position_command (fen : string) (moves : list string) : string :=
  match moves with
  | [] =>
      if String.eqb fen "startpos" then "position startpos"
      else "position fen " ++ fen
  | _ :: _ =>
      if String.eqb fen "startpos" then
        "position startpos moves " ++ join " " moves
      else "position fen " ++ fen ++ " moves " ++ join " " moves
  end.

Definition moves_given (moves : option (list string)) : list string :=
  match moves with
  | Some l => l
  | None => []
  end.

Definition newline : string := String "010" "".

(** Lines 88-101 as they run: the commands, or the [ValueError] ([None])
    with which line 101 ends the call, before the engine is started, when
    [str()] refuses the depth. *)
Definition build_commands (fen : string) (depth : Z) (moves : option (list string))
  : option (list string) :=
  match str_int depth with
  | Some _ => Some (commands_of fen depth moves)
  | None => None
  end.

(** The script as it is passed to [write], one call per command. *)
Definition script_text (fen : string) (depth : Z) (moves : list string)
  : list string :=
  [ "uci" ++ newline; "isready" ++ newline; "ucinewgame" ++ newline;
    position_command fen moves ++ newline;
    "go depth " ++ str_of_int depth ++ newline ].

(** A line the loop takes for the terminal one. *)
Definition is_bestmove_line (raw_line : string) : bool :=
  startswith (strip raw_line) "bestmove".

(** What a line of output contributes to the tracking: the evaluation of an
    [info] line whose parse succeeds. *)
Definition info_evaluation (raw_line : string) : option Evaluation :=
  let line := strip raw_line in
  if startswith line "info" then
    match _parse_evaluation line with
    | Ok (Some e) => Some e
    | _ => None
    end
  else None.

Definition line_evaluations (raw_line : string) : list Evaluation :=
  match info_evaluation raw_line with
  | Some e => [e]
  | None => []
  end.

(** The evaluations of the [info] lines of [lines] that parse, in order. *)
Definition parsed_evaluations (lines : list string) : list Evaluation :=
  flat_map line_evaluations lines.

(** [e] is the evaluation of maximum depth in [es], the latest one among
    those of that depth. *)
Definition deepest_latest (es : list Evaluation) (e : Evaluation) : Prop :=
  exists before after,
    es = (before ++ e :: after)%list /\
    Forall (fun x => depth x <= depth e) before /\
    Forall (fun x => depth x < depth e) after.

(** An evaluation the loop can track at all: its depth is not below the
    initial best depth. *)
Definition trackable (e : Evaluation) : bool := -1 <=? depth e.

(** Lines 141-143 as one step on the pair (tracked evaluation, best depth). *)
Definition track (s : option Evaluation * Z) (e : Evaluation)
  : option Evaluation * Z :=
  if snd s <=? depth e then (Some e, depth e) else s.

(** Equality of two strings up to the case of their letters. *)
Fixpoint eq_ignore_case (s t : string) : Prop :=
  match s, t with
  | "", "" => True
  | String a s', String b t' => lower_char a = lower_char b /\ eq_ignore_case s' t'
  | _, _ => False
  end.

(** [n] zero digits. *)
Fixpoint zeros (n : nat) : string :=
  match n with
  | O => ""
  | S k => String "0" (zeros k)
  end.

(** A process with both pipes open and a pipe that never breaks, which
    prints [lines] and exits with code [rc] and [err] on standard error. *)
Definition engine (lines : list string) (rc : Z) (err : string) : process :=
  {| stdin_present := true; stdout_present := true; stdin_budget := None;
     stdout_lines := lines; exit := Some (rc, err); poll_on_error := None |}.

(** Lines 146-153: what a terminal line does to the loop state. *)
Definition take_bestmove (st : loop_state) (raw_line : string) : loop_state :=
  let tokens := split (strip raw_line) in
  {| ls_bestmove :=
       if (2 <=? List.length tokens)%nat then item tokens 1 else ls_bestmove st;
     ls_ponder :=
       if contains "ponder" tokens then
         match index "ponder" tokens with
         | Some ponder_index =>
             if (ponder_index + 1 <? List.length tokens)%nat
             then item tokens (ponder_index + 1) else ls_ponder st
         | None => ls_ponder st
         end
       else ls_ponder st;
     ls_evaluation := ls_evaluation st;
     best_depth := best_depth st |}.

(** Output lines in which five [info] lines report depths 3, 1, 5, 5, 2
    with scores 10, 20, 30, 40, 50 centipawns. *)
Definition five_info_lines : list string :=
  [ "info depth 3 score cp 10" ++ newline;
    "info depth 1 score cp 20" ++ newline;
    "info depth 5 score cp 30" ++ newline;
    "info depth 5 score cp 40" ++ newline;
    "info depth 2 score cp 50" ++ newline ].

(** The double [0.4], that is [40 / 100.0]. *)
Definition float_0_4 : float := S754_finite false 7205759403792794 (-54).

(** The invariant of the data model on a score: it is a finite number. *)
Definition finite_number (n : number) : bool :=
  match n with
  | Int _ => true
  | Float x => is_finite x
  end.

(** ** Further notions: the rest of the module *)

(** The state the read loop ends in from [st0], or the exception that
    leaves it. *)
Definition loop_state_after (lines : list string) (st0 : loop_state)
  : result loop_state :=
  match read_loop lines st0 with
  | Ok (st, _) => Ok st
  | Raise e => Raise e
  end.

(** The same process printing other lines. *)
Definition with_output (p : process) (lines : list string) : process :=
  {| stdin_present := stdin_present p; stdout_present := stdout_present p;
     stdin_budget := stdin_budget p; stdout_lines := lines;
     exit := exit p; poll_on_error := poll_on_error p |}.

(** A line the loop passes over: blank, or beginning with neither [info]
    nor [bestmove]. *)
Definition passed_over (raw_line : string) : bool :=
  let line := strip raw_line in
  String.eqb line ""
  || negb (startswith line "info") && negb (startswith line "bestmove").

Fixpoint no_space (s : string) : bool :=
  match s with
  | "" => true
  | String c r => negb (isspace c) && no_space r
  end.

(** A token: a non-empty string without white space. *)
Definition is_token (w : string) : bool :=
  match w with
  | "" => false
  | _ => no_space w
  end.

(** [-x] on a float. *)
Definition float_neg (x : float) : float := SFopp x.

(** ** [main]

    The command line is taken as parsed ([argparse] gives [--fen],
    [--depth], [--moves] and [--container-name], with their defaults); the
    host answers the two [docker] invocations; what [print] writes is
    collected line by line.  [str_of_float] is [str()] on a float. *)

Module Cli.

Record Namespace : Type := {
  fen : string;
  depth : Z;
  moves : option (list string);
  container_name : string
}.

(** The defaults of the four options. *)
Definition defaults : Namespace :=
  {| fen := "startpos"; depth := 12; moves := None;
     container_name := "stockfish-engine" |}.

End Cli.

(** [StockfishDockerClient.__init__]: the two attributes. *)
Record StockfishDockerClient : Type := {
  container_name : string;
  engine_cmd : string
}.

Definition new_client (container_name : string) : StockfishDockerClient :=
  {| container_name := container_name; engine_cmd := "stockfish" |}.

(** The host: what [subprocess.run] and [subprocess.Popen] do for an
    argument vector. *)
Record host : Type := {
  run : list string -> result string;
  popen : list string -> result process
}.

(** Lines 45-51 and 106-112: the two argument vectors. *)
Definition inspect_argv (self : StockfishDockerClient) : list string :=
  ["docker"; "inspect"; "-f"; "{{.State.Running}}"; container_name self].

Definition exec_argv (self : StockfishDockerClient) : list string :=
  ["docker"; "exec"; "-i"; container_name self; engine_cmd self].

Section Main.

Variable str_of_float : float -> string.

(** [str(x)], the [{x}] of an f-string, for a score. *)
Definition str_of_number (x : number) : string :=
  match x with
  | Int n => str_of_int n
  | Float f => str_of_float f
  end.

(** [print(text)]: one more line on standard output. *)
Definition print (out : list string) (text : string) : list string :=
  append out text.

(** Lines 228-233: the report. *)
Definition report (prediction : Prediction) : list string :=
  let out := print [] ("Best move: " ++ bestmove prediction) in
  let out :=
    match ponder prediction with
    | Some q => if String.eqb q "" then out else print out ("Ponder:     " ++ q)
    | None => out
    end in
  let out := print out ("Depth:      " ++ str_of_int (depth (evaluation prediction))) in
  let out := print out ("Score type: " ++ score_type (evaluation prediction)) in
  print out ("Score:      " ++ str_of_number (score_value (evaluation prediction))).

(** Lines 221-233: the result and the lines printed. *)
Definition main (h : host) (args : Cli.Namespace) : result unit * list string :=
  let client := new_client (Cli.container_name args) in
  match is_service_ready (run h (inspect_argv client)) with
  | Raise e => (Raise e, [])
  | Ok false =>
      (Raise (RuntimeError
                "Stockfish container is not running; please start it with docker compose"),
       [])
  | Ok true =>
      match predict_next_move (popen h (exec_argv client))
              (Cli.fen args) (Cli.depth args) (Cli.moves args) with
      | Raise e => (Raise e, [])
      | Ok prediction => (Ok tt, report prediction)
      end
  end.

End Main.

(** ** The command script *)

Lemma commands_of_eq fen depth moves :
  commands_of fen depth moves =
  [ "uci"; "isready"; "ucinewgame";
    position_command fen (moves_given moves);
    "go depth " ++ str_of_int depth ].
Proof.
  unfold commands_of, position_command, moves_given, append.
  destruct moves as [[|m ms]|]; destruct (String.eqb fen "startpos"); reflexivity.
Qed.

Lemma stdin_accepts_le p n m :
  (m <= n)%nat -> stdin_accepts p n -> stdin_accepts p m.
Proof.
  unfold stdin_accepts; destruct (stdin_budget p); [lia | trivial].
Qed.

Lemma stdin_open_true p w :
  stdin_accepts p (S (stdin_calls w)) -> stdin_open p w = true.
Proof.
  unfold stdin_accepts, stdin_open.
  destruct (stdin_budget p); [intros H; apply Nat.ltb_lt; lia | reflexivity].
Qed.

Lemma stdin_write_ok p text w :
  stdin_accepts p (S (stdin_calls w)) ->
  stdin_write p text w =
  (Ok tt, {| written := written w ++ [text]; stdin_calls := S (stdin_calls w);
             returncode := returncode w; killed := killed w |}).
Proof.
  intros H; unfold stdin_write; now rewrite (stdin_open_true _ _ H).
Qed.

Lemma stdin_flush_ok p w :
  stdin_accepts p (S (stdin_calls w)) ->
  stdin_flush p w =
  (Ok tt, {| written := written w; stdin_calls := S (stdin_calls w);
             returncode := returncode w; killed := killed w |}).
Proof.
  intros H; unfold stdin_flush; now rewrite (stdin_open_true _ _ H).
Qed.

Lemma write_commands_ok p commands : forall w,
  stdin_accepts p (stdin_calls w + List.length commands) ->
  write_commands p commands w =
  (Ok tt, {| written := written w ++ map (fun c => c ++ newline) commands;
             stdin_calls := stdin_calls w + List.length commands;
             returncode := returncode w; killed := killed w |}).
Proof.
  induction commands as [|c cs IH]; intros w H; cbn [write_commands List.length map] in *.
  - unfold ret. rewrite app_nil_r, Nat.add_0_r. now destruct w.
  - unfold mbind. rewrite stdin_write_ok
      by (eapply stdin_accepts_le; [|exact H]; lia).
    rewrite IH; cbn [written stdin_calls returncode killed].
    + rewrite <- app_assoc. cbn [app]. do 2 f_equal. lia.
    + eapply stdin_accepts_le; [|exact H]; lia.
Qed.

Lemma send_script_ok p fen depth moves :
  stdin_accepts p 6 ->
  send_script p (commands_of fen depth moves) io_start =
  (Ok tt, {| written := script_text fen depth (moves_given moves);
             stdin_calls := 6; returncode := None; killed := false |}).
Proof.
  intros H. unfold send_script, mbind.
  rewrite write_commands_ok
    by (rewrite commands_of_eq; cbn; eapply stdin_accepts_le; [|exact H]; lia).
  rewrite stdin_flush_ok
    by (rewrite commands_of_eq; cbn; eapply stdin_accepts_le; [|exact H]; lia).
  rewrite commands_of_eq. reflexivity.
Qed.

(** ** The session, phase by phase *)

Lemma converse_ok p st rest rc err w :
  read_loop (stdout_lines p) loop_start = Ok (st, rest) ->
  exit p = Some (rc, err) ->
  stdin_accepts p (S (S (stdin_calls w))) ->
  converse p w =
  (Ok (st, err),
   {| written := written w ++ ["quit" ++ newline];
      stdin_calls := S (S (stdin_calls w));
      returncode := Some rc; killed := killed w |}).
Proof.
  intros Hloop Hexit Hin. unfold converse, mbind, lift. rewrite Hloop.
  rewrite stdin_write_ok by (eapply stdin_accepts_le; [|exact Hin]; lia).
  rewrite stdin_flush_ok by exact Hin.
  unfold communicate. rewrite Hexit. reflexivity.
Qed.

(** A session whose pipe holds, whose loop ends and whose process exits
    within the wait reaches the checks of lines 163-172 with the script and
    [quit] written and nothing killed. *)
Lemma run_session_reaches_checks p fen depth moves st rest rc err :
  stdin_present p = true -> stdout_present p = true ->
  stdin_accepts p 8 ->
  read_loop (stdout_lines p) loop_start = Ok (st, rest) ->
  exit p = Some (rc, err) ->
  run_session p fen depth moves io_start =
  conclude depth st err
    {| written := script_text fen depth (moves_given moves) ++ ["quit" ++ newline];
       stdin_calls := 8; returncode := Some rc; killed := false |}.
Proof.
  intros Hin Hout Hacc Hloop Hexit. unfold run_session.
  rewrite Hin, Hout. cbn [negb orb].
  unfold mbind at 1. unfold finally. unfold mbind at 1.
  rewrite send_script_ok by (eapply stdin_accepts_le; [|exact Hacc]; lia).
  rewrite (converse_ok p st rest rc err) by assumption.
  reflexivity.
Qed.


Lemma conclude_exit_zero depth st err w :
  returncode w = Some 0 ->
  conclude depth st err w =
  (match ls_bestmove st with
   | None => Raise (RuntimeError "Stockfish did not report a best move")
   | Some bestmove =>
       Ok {| bestmove := bestmove; ponder := ls_ponder st;
             evaluation :=
               match ls_evaluation st with
               | None => {| score_type := "cp"; score_value := Float float_0;
                            depth := depth |}
               | Some e => e
               end |}
   end, w).
Proof.
  intros Hrc. unfold conclude. rewrite Hrc. cbn [exit_failed Z.eqb negb].
  destruct (ls_bestmove st); reflexivity.
Qed.

(** ** The read loop *)

(** ** The read loop *)

Lemma loop_body_tracks st0 l st1 c :
  loop_body st0 l = Ok (st1, c) ->
  (ls_evaluation st1, best_depth st1) =
  fold_left track (line_evaluations l) (ls_evaluation st0, best_depth st0).
Proof.
  unfold loop_body, line_evaluations, info_evaluation. intros Hbody.
  destruct (String.eqb_spec (strip l) "") as [Hempty|Hne].
  - injection Hbody as <- <-. rewrite Hempty. reflexivity.
  - destruct (startswith (strip l) "info").
    + unfold bind in Hbody.
      destruct (_parse_evaluation (strip l)) as [[e|]|e]; [| |discriminate].
      * cbn [fold_left]. unfold track. cbn [snd].
        destruct (best_depth st0 <=? depth e);
          injection Hbody as <- <-; reflexivity.
      * injection Hbody as <- <-. reflexivity.
    + destruct (startswith (strip l) "bestmove");
        injection Hbody as <- <-; reflexivity.
Qed.

Lemma read_loop_tracks : forall lines st0 st rest,
  read_loop lines st0 = Ok (st, rest) ->
  exists seen,
    lines = (seen ++ rest)%list /\
    (ls_evaluation st, best_depth st) =
    fold_left track (parsed_evaluations seen) (ls_evaluation st0, best_depth st0).
Proof.
  induction lines as [|l ls IH]; intros st0 st rest H; cbn [read_loop] in H.
  - injection H as <- <-. exists []. split; reflexivity.
  - unfold bind in H.
    destruct (loop_body st0 l) as [[st1 c]|e] eqn:Hbody; [|discriminate].
    apply loop_body_tracks in Hbody.
    destruct c.
    + destruct (IH _ _ _ H) as (seen & -> & Hfold).
      exists (l :: seen). split; [reflexivity|].
      rewrite Hfold, Hbody. unfold parsed_evaluations. cbn [flat_map].
      now rewrite fold_left_app.
    + injection H as <- <-. exists [l]. split; [reflexivity|].
      unfold parsed_evaluations. cbn [flat_map]. now rewrite app_nil_r.
Qed.

Lemma track_invariant : forall es,
  match fold_left track es (None, -1) with
  | (None, d) => d = -1 /\ filter trackable es = []
  | (Some e, d) =>
      d = depth e /\ -1 <= d /\ deepest_latest (filter trackable es) e
  end.
Proof.
  intros es. induction es as [|x es IH] using rev_ind; [cbn; auto|].
  rewrite fold_left_app, filter_app. cbn [fold_left filter].
  destruct (fold_left track es (None, -1)) as [[e|] d]; unfold track; cbn [snd].
  - destruct IH as (-> & Hd & before & after & Hc & Hb & Ha).
    destruct (Z.leb_spec (depth e) (depth x)) as [Hle|Hgt].
    + assert (Hx : trackable x = true) by (apply Z.leb_le; lia).
      rewrite Hx. repeat split; [lia|].
      exists (filter trackable es), []. rewrite Hc.
      repeat split; [|constructor].
      apply Forall_app. split.
      * eapply Forall_impl; [|exact Hb]. cbn. intros; lia.
      * constructor; [lia|]. eapply Forall_impl; [|exact Ha]. cbn. intros; lia.
    + repeat split; [exact Hd|].
      destruct (trackable x).
      * exists before, (after ++ [x])%list. rewrite Hc, <- app_assoc.
        repeat split; [exact Hb|]. apply Forall_app. split; [exact Ha|].
        constructor; [lia|constructor].
      * rewrite app_nil_r. exists before, after. auto.
  - destruct IH as (-> & Hc). rewrite Hc. cbn [app]. unfold trackable.
    destruct (Z.leb_spec (-1) (depth x)) as [Hle|Hgt].
    + repeat split; [exact Hle|]. exists [], []. repeat split; constructor.
    + split; reflexivity.
Qed.

Lemma bestmove_line_shape s :
  startswith s "bestmove" = true ->
  startswith s "info" = false /\ String.eqb s "" = false.
Proof.
  unfold startswith. destruct s as [|c s]; cbn [prefix]; [discriminate|].
  destruct (ascii_dec "b" c) as [<-|]; [|discriminate]. intros _.
  split; [|reflexivity].
  destruct (ascii_dec "i" "b"); [discriminate|reflexivity].
Qed.

Lemma loop_body_bestmove st l :
  is_bestmove_line l = true ->
  loop_body st l = Ok (take_bestmove st l, Break).
Proof.
  unfold is_bestmove_line, loop_body. intros H.
  destruct (bestmove_line_shape _ H) as [-> ->]. now rewrite H.
Qed.

Lemma loop_body_not_bestmove st l st' c :
  is_bestmove_line l = false ->
  loop_body st l = Ok (st', c) ->
  c = Continue /\ ls_bestmove st' = ls_bestmove st /\ ls_ponder st' = ls_ponder st.
Proof.
  unfold is_bestmove_line, loop_body. intros Hb H.
  destruct (String.eqb (strip l) ""); [now injection H as <- <-|].
  destruct (startswith (strip l) "info").
  - unfold bind in H.
    destruct (_parse_evaluation (strip l)) as [[e|]|e]; [| |discriminate].
    + destruct (best_depth st <=? depth e); now injection H as <- <-.
    + now injection H as <- <-.
  - rewrite Hb in H. now injection H as <- <-.
Qed.

(** Without a terminal line the loop reads to the end of the stream and
    records no move. *)
Lemma read_loop_no_bestmove : forall lines st0 st rest,
  Forall (fun l => is_bestmove_line l = false) lines ->
  read_loop lines st0 = Ok (st, rest) ->
  rest = [] /\ ls_bestmove st = ls_bestmove st0 /\ ls_ponder st = ls_ponder st0.
Proof.
  induction lines as [|l ls IH]; intros st0 st rest Hall H; cbn [read_loop] in H.
  - now injection H as <- <-.
  - inversion Hall as [|? ? Hl Hls]; subst. unfold bind in H.
    destruct (loop_body st0 l) as [[st1 c]|e] eqn:Hbody; [|discriminate].
    destruct (loop_body_not_bestmove _ _ _ _ Hl Hbody) as (-> & Hbm & Hpo).
    destruct (IH _ _ _ Hls H) as (-> & Hbm' & Hpo').
    repeat split; congruence.
Qed.

(** The loop stops on the first terminal line and leaves the rest unread. *)
Lemma read_loop_stops_at_bestmove : forall pre st0 st1 l rest,
  Forall (fun x => is_bestmove_line x = false) pre ->
  is_bestmove_line l = true ->
  read_loop pre st0 = Ok (st1, []) ->
  read_loop (pre ++ l :: rest) st0 = Ok (take_bestmove st1 l, rest).
Proof.
  induction pre as [|x pre IH]; intros st0 st1 l rest Hall Hl H;
    cbn [read_loop app] in *.
  - injection H as <-. now rewrite loop_body_bestmove.
  - inversion Hall as [|? ? Hx Hpre]; subst. unfold bind in *.
    destruct (loop_body st0 x) as [[st' c]|e] eqn:Hbody; [|discriminate].
    destruct (loop_body_not_bestmove _ _ _ _ Hx Hbody) as (-> & _ & _).
    now apply IH.
Qed.

(** The loop returns whenever no line makes the parser raise. *)
Lemma read_loop_returns : forall lines st0,
  Forall (fun l => exists r, _parse_evaluation (strip l) = Ok r) lines ->
  exists st rest, read_loop lines st0 = Ok (st, rest).
Proof.
  induction lines as [|l ls IH]; intros st0 Hall; cbn [read_loop].
  - now exists st0, [].
  - inversion Hall as [|? ? [r Hr] Hls]; subst.
    assert (Hbody : exists st1 c, loop_body st0 l = Ok (st1, c)).
    { unfold loop_body. rewrite Hr. unfold bind.
      destruct (String.eqb (strip l) ""); [now eauto|].
      destruct (startswith (strip l) "info").
      - destruct r as [e|]; [destruct (best_depth st0 <=? depth e)|]; eauto.
      - destruct (startswith (strip l) "bestmove"); eauto. }
    destruct Hbody as (st1 & c & ->). unfold bind.
    destruct c; [apply IH; exact Hls | eauto].
Qed.

(** C1 (amended).  The read loop ends on every sequence of output lines none
    of which makes the parser raise; and for every sequence on which it
    ends, with [seen] the lines it consumed: the tracked evaluation is, among
    the evaluations of the [info] lines of [seen] that parsed and whose depth
    is at least -1 (the initial best depth), the one of maximum depth, the
    latest of them at equal depth, and nothing is tracked when there is none;
    when no parsed depth is below -1 this is the deepest, latest of all parsed
    evaluations.  For [info] lines of depths 3, 1, 5, 5, 2 and scores 10, 20,
    30, 40, 50 the tracked evaluation is the later depth-5 line, score
    40 / 100.0. *)
Theorem tracked_best_is_deepest_latest :
  (forall lines,
     Forall (fun l => exists r, _parse_evaluation (strip l) = Ok r) lines ->
     exists st rest, read_loop lines loop_start = Ok (st, rest)) /\
  (forall lines st rest,
     read_loop lines loop_start = Ok (st, rest) ->
     exists seen,
       lines = (seen ++ rest)%list /\
       match ls_evaluation st with
       | Some e => deepest_latest (filter trackable (parsed_evaluations seen)) e
       | None => filter trackable (parsed_evaluations seen) = []
       end /\
       (Forall (fun e => -1 <= depth e) (parsed_evaluations seen) ->
        match ls_evaluation st with
        | Some e => deepest_latest (parsed_evaluations seen) e
        | None => parsed_evaluations seen = []
        end)) /\
  read_loop five_info_lines loop_start =
  Ok ({| ls_bestmove := None; ls_ponder := None;
         ls_evaluation := Some {| score_type := "cp"; score_value := Float float_0_4;
                                  depth := 5 |};
         best_depth := 5 |}, []).
Proof.
  split; [intros lines; apply read_loop_returns|].
  split; [|vm_compute; reflexivity].
  intros lines st rest H.
  destruct (read_loop_tracks _ _ _ _ H) as (seen & Hlines & Hfold).
  exists seen. split; [exact Hlines|].
  pose proof (track_invariant (parsed_evaluations seen)) as Hinv.
  cbn [loop_start ls_evaluation best_depth] in Hfold. rewrite <- Hfold in Hinv.
  assert (Hmain : match ls_evaluation st with
                  | Some e => deepest_latest (filter trackable (parsed_evaluations seen)) e
                  | None => filter trackable (parsed_evaluations seen) = []
                  end).
  { destruct (ls_evaluation st); [apply Hinv | apply Hinv]. }
  split; [exact Hmain|]. intros Hall.
  assert (Hid : filter trackable (parsed_evaluations seen) = parsed_evaluations seen).
  { clear -Hall. induction Hall as [|x l Hx _ IH]; [reflexivity|].
    cbn [filter]. unfold trackable at 1.
    destruct (Z.leb_spec (-1) (depth x)); [now rewrite IH | lia]. }
  now rewrite Hid in Hmain.
Qed.

Lemma tracked_best_is_deepest_latest_witness :
  (exists st rest, read_loop five_info_lines loop_start = Ok (st, rest)) /\
  exists seen,
    five_info_lines = (seen ++ [])%list /\
    deepest_latest (filter trackable (parsed_evaluations seen))
      {| score_type := "cp"; score_value := Float float_0_4; depth := 5 |} /\
    deepest_latest (parsed_evaluations seen)
      {| score_type := "cp"; score_value := Float float_0_4; depth := 5 |}.
Proof.
  split.
  - apply (proj1 tracked_best_is_deepest_latest five_info_lines).
    repeat constructor; eexists; vm_compute; reflexivity.
  - destruct (proj1 (proj2 tracked_best_is_deepest_latest) five_info_lines
                {| ls_bestmove := None; ls_ponder := None;
                   ls_evaluation := Some {| score_type := "cp";
                                            score_value := Float float_0_4;
                                            depth := 5 |};
                   best_depth := 5 |} [])
      as (seen & Hlines & Hbest & Hall).
    + vm_compute; reflexivity.
    + exists seen. split; [exact Hlines|]. split; [exact Hbest|].
      apply Hall. rewrite app_nil_r in Hlines. subst seen.
      vm_compute. repeat constructor; discriminate.
Defined.

(** C1, as stated, fails on a line whose depth is below -1: the line parses,
    it is the only and so the deepest evaluation, and nothing is tracked. *)
Lemma tracked_best_misses_depth_below_minus_one :
  info_evaluation ("info depth -5 score cp 40" ++ newline) =
    Some {| score_type := "cp"; score_value := Float float_0_4; depth := -5 |} /\
  read_loop ["info depth -5 score cp 40" ++ newline] loop_start =
    Ok ({| ls_bestmove := None; ls_ponder := None; ls_evaluation := None;
           best_depth := -1 |}, []).
Proof. split; vm_compute; reflexivity. Qed.

(** ** Outcomes of a session *)

Lemma query_engine_exit_zero p fen depth moves st rest err :
  stdin_present p = true -> stdout_present p = true ->
  stdin_accepts p 8 ->
  read_loop (stdout_lines p) loop_start = Ok (st, rest) ->
  exit p = Some (0, err) ->
  fst (_query_engine (Ok p) fen depth moves) =
  match ls_bestmove st with
  | None => Raise (RuntimeError "Stockfish did not report a best move")
  | Some bestmove =>
      Ok {| bestmove := bestmove; ponder := ls_ponder st;
            evaluation :=
              match ls_evaluation st with
              | None => {| score_type := "cp"; score_value := Float float_0;
                           depth := depth |}
              | Some e => e
              end |}
  end.
Proof.
  intros Hin Hout Hacc Hloop Hexit. cbn [_query_engine].
  rewrite (run_session_reaches_checks p fen depth moves st rest 0 err) by assumption.
  now rewrite conclude_exit_zero.
Qed.

(** C2 (amended).  For every session in which a move is extracted and no
    evaluation is tracked, and whose process then exits with code 0 within the
    wait, [_query_engine] returns the prediction with the fallback evaluation:
    score type [cp], score 0.0, depth the requested depth.  Output consisting
    of [bestmove d2d4] alone, at requested depth 8, gives
    [Prediction("d2d4", None, {cp, 0.0, 8})]. *)
Theorem fallback_evaluation_on_clean_exit :
  (forall p fen depth moves st rest err move,
     stdin_present p = true -> stdout_present p = true ->
     stdin_accepts p 8 ->
     read_loop (stdout_lines p) loop_start = Ok (st, rest) ->
     ls_bestmove st = Some move ->
     ls_evaluation st = None ->
     exit p = Some (0, err) ->
     fst (_query_engine (Ok p) fen depth moves) =
     Ok {| bestmove := move; ponder := ls_ponder st;
           evaluation := {| score_type := "cp"; score_value := Float float_0;
                            depth := depth |} |}) /\
  (forall fen moves err,
     fst (_query_engine (Ok (engine ["bestmove d2d4" ++ newline] 0 err)) fen 8 moves) =
     Ok {| bestmove := "d2d4"; ponder := None;
           evaluation := {| score_type := "cp"; score_value := Float float_0;
                            depth := 8 |} |}).
Proof.
  split.
  - intros p fen depth moves st rest err move Hin Hout Hacc Hloop Hbm Hev Hexit.
    rewrite (query_engine_exit_zero p fen depth moves st rest err) by assumption.
    now rewrite Hbm, Hev.
  - intros fen moves err.
    now rewrite (query_engine_exit_zero _ fen 8 moves
                   {| ls_bestmove := Some "d2d4"; ls_ponder := None;
                      ls_evaluation := None; best_depth := -1 |} [] err).
Qed.

Lemma fallback_evaluation_on_clean_exit_witness :
  fst (_query_engine
         (Ok (engine ["info string ready" ++ newline;
                      "bestmove d2d4 ponder d7d5" ++ newline] 0 ""))
         "startpos" 8 None) =
  Ok {| bestmove := "d2d4"; ponder := Some "d7d5";
        evaluation := {| score_type := "cp"; score_value := Float float_0;
                         depth := 8 |} |}.
Proof.
  apply (proj1 fallback_evaluation_on_clean_exit
           (engine ["info string ready" ++ newline;
                    "bestmove d2d4 ponder d7d5" ++ newline] 0 "")
           "startpos" 8 None
           {| ls_bestmove := Some "d2d4"; ls_ponder := Some "d7d5";
              ls_evaluation := None; best_depth := -1 |} [] "" "d2d4");
    first [reflexivity | exact I].
Defined.

(** C2, as stated, fails when the process exits with a non-zero code: the
    move is extracted, nothing is tracked, and the call raises. *)
Lemma fallback_evaluation_lost_on_failed_exit :
  read_loop ["bestmove d2d4" ++ newline] loop_start =
    Ok ({| ls_bestmove := Some "d2d4"; ls_ponder := None; ls_evaluation := None;
           best_depth := -1 |}, []) /\
  fst (_query_engine (Ok (engine ["bestmove d2d4" ++ newline] 1 "crash"))
         "startpos" 8 None) =
    Raise (RuntimeError "Stockfish process failed: crash").
Proof. split; vm_compute; reflexivity. Qed.



(** C7 (amended).  For every session whose output ends without a line
    beginning with [bestmove], whose read loop ends and whose process exits
    with code 0 within the wait, [_query_engine] raises the error that no
    best move was reported. *)
Theorem no_bestmove_raises_on_clean_exit :
  forall p fen depth moves st rest err,
    stdin_present p = true -> stdout_present p = true ->
    stdin_accepts p 8 ->
    Forall (fun l => is_bestmove_line l = false) (stdout_lines p) ->
    read_loop (stdout_lines p) loop_start = Ok (st, rest) ->
    exit p = Some (0, err) ->
    rest = [] /\
    fst (_query_engine (Ok p) fen depth moves) =
    Raise (RuntimeError "Stockfish did not report a best move").
Proof.
  intros p fen depth moves st rest err Hin Hout Hacc Hall Hloop Hexit.
  destruct (read_loop_no_bestmove _ _ _ _ Hall Hloop) as (Hrest & Hbm & _).
  split; [exact Hrest|].
  rewrite (query_engine_exit_zero p fen depth moves st rest err) by assumption.
  now rewrite Hbm.
Qed.

Lemma no_bestmove_raises_on_clean_exit_witness :
  fst (_query_engine
         (Ok (engine ["info depth 4 score cp 25" ++ newline; newline;
                      "readyok" ++ newline] 0 ""))
         "startpos" 12 None) =
  Raise (RuntimeError "Stockfish did not report a best move").
Proof.
  apply (no_bestmove_raises_on_clean_exit
           (engine ["info depth 4 score cp 25" ++ newline; newline;
                    "readyok" ++ newline] 0 "")
           "startpos" 12 None
           {| ls_bestmove := None; ls_ponder := None;
              ls_evaluation :=
                Some {| score_type := "cp";
                        score_value := Float (S754_finite false 4503599627370496 (-54));
                        depth := 4 |};
              best_depth := 4 |} [] "");
    first [reflexivity | exact I | repeat constructor].
Defined.

(** C7, as stated, fails when the stream closes and the process has exited
    with a non-zero code: the exit-code check comes first and its error is
    the one raised. *)
Lemma no_bestmove_masked_by_failed_exit :
  fst (_query_engine (Ok (engine [] 1 ("no such container" ++ newline)))
         "startpos" 12 None) =
  Raise (RuntimeError "Stockfish process failed: no such container").
Proof. vm_compute; reflexivity. Qed.

(** The first token of a line that starts with a non-blank character starts
    with that character. *)
Lemma split_head c r :
  isspace c = false -> exists w ws, split (String c r) = String c w :: ws.
Proof.
  intros Hc. cbn [split]. rewrite Hc.
  destruct r as [|c' r']; [now eauto|].
  destruct (isspace c'); [now eauto|].
  destruct (split (String c' r')); eauto.
Qed.

Lemma take_bestmove_single_token st l :
  is_bestmove_line l = true ->
  (List.length (split (strip l)) < 2)%nat ->
  take_bestmove st l = st.
Proof.
  unfold is_bestmove_line, startswith, take_bestmove. intros Hb Hlen.
  destruct (strip l) as [|c r]; [discriminate|]. cbn [prefix] in Hb.
  destruct (ascii_dec "b" c) as [<-|]; [|discriminate].
  destruct (split_head "b" r eq_refl) as (w & ws & Hsplit).
  rewrite Hsplit in *. destruct ws; [|cbn in Hlen; lia].
  destruct st; reflexivity.
Qed.

(** C10 (amended).  For every session whose first line beginning with
    [bestmove] has no second token: the loop stops on that line, leaving the
    rest unread, in the very state it would have reached had the stream ended
    just before it, so no move is recorded; and when the process then exits
    with code 0 within the wait, [_query_engine] raises the same error as
    when no [bestmove] line is seen at all, that no best move was
    reported. *)
Theorem bestmove_without_move_is_no_bestmove :
  forall p pre l rest fen depth moves st err,
    stdout_lines p = (pre ++ l :: rest)%list ->
    Forall (fun x => is_bestmove_line x = false) pre ->
    is_bestmove_line l = true ->
    (List.length (split (strip l)) < 2)%nat ->
    read_loop pre loop_start = Ok (st, []) ->
    read_loop (stdout_lines p) loop_start = Ok (st, rest) /\
    ls_bestmove st = None /\
    (stdin_present p = true -> stdout_present p = true ->
     stdin_accepts p 8 -> exit p = Some (0, err) ->
     fst (_query_engine (Ok p) fen depth moves) =
     Raise (RuntimeError "Stockfish did not report a best move")).
Proof.
  intros p pre l rest fen depth moves st err Hlines Hpre Hl Hlen Hloop.
  assert (Hfull : read_loop (stdout_lines p) loop_start = Ok (st, rest)).
  { rewrite Hlines, (read_loop_stops_at_bestmove pre loop_start st l rest) by assumption.
    now rewrite take_bestmove_single_token. }
  assert (Hbm : ls_bestmove st = None).
  { now destruct (read_loop_no_bestmove _ _ _ _ Hpre Hloop) as (_ & -> & _). }
  repeat split; [exact Hfull | exact Hbm |].
  intros Hin Hout Hacc Hexit.
  rewrite (query_engine_exit_zero p fen depth moves st rest err) by assumption.
  now rewrite Hbm.
Qed.

Lemma bestmove_without_move_is_no_bestmove_witness :
  fst (_query_engine
         (Ok (engine ["info depth 4 score cp 25" ++ newline;
                      "bestmove" ++ newline;
                      "bestmove e2e4" ++ newline] 0 ""))
         "startpos" 12 None) =
  Raise (RuntimeError "Stockfish did not report a best move").
Proof.
  apply (bestmove_without_move_is_no_bestmove
           (engine ["info depth 4 score cp 25" ++ newline;
                    "bestmove" ++ newline;
                    "bestmove e2e4" ++ newline] 0 "")
           ["info depth 4 score cp 25" ++ newline]
           ("bestmove" ++ newline)
           ["bestmove e2e4" ++ newline]
           "startpos" 12 None
           {| ls_bestmove := None; ls_ponder := None;
              ls_evaluation :=
                Some {| score_type := "cp";
                        score_value := Float (S754_finite false 4503599627370496 (-54));
                        depth := 4 |};
              best_depth := 4 |} "");
    first [reflexivity | exact I | repeat constructor].
Defined.

(** C10, as stated, fails when the process exits with a non-zero code: the
    error raised is the process failure, not the missing best move. *)
Lemma bestmove_without_move_masked_by_failed_exit :
  fst (_query_engine (Ok (engine ["bestmove" ++ newline] 1 "crash"))
         "startpos" 12 None) =
  Raise (RuntimeError "Stockfish process failed: crash").
Proof. vm_compute; reflexivity. Qed.

(** ** What the session writes *)

Lemma query_engine_written p fen depth moves :
  stdin_present p = true -> stdout_present p = true ->
  stdin_accepts p 6 ->
  exists tail,
    written (snd (_query_engine (Ok p) fen depth moves)) =
    (script_text fen depth (moves_given moves) ++ tail)%list /\
    (tail = [] \/ tail = ["quit" ++ newline]).
Proof.
  intros Hin Hout Hacc. cbn [_query_engine]. unfold run_session.
  rewrite Hin, Hout. cbn [negb orb].
  unfold mbind at 1. unfold finally. unfold mbind at 1.
  rewrite send_script_ok by exact Hacc.
  set (script := script_text fen depth (moves_given moves)).
  unfold converse, mbind, lift.
  destruct (read_loop (stdout_lines p) loop_start) as [[st rest]|e].
  - unfold stdin_write, stdin_flush, communicate, kill_if_running, conclude, ret.
    cbn [written stdin_calls returncode killed].
    destruct (stdin_open p _).
    + cbn [written stdin_calls returncode killed].
      destruct (stdin_open p _); cbn [written stdin_calls returncode killed].
      * destruct (exit p) as [[rc err]|]; cbn [written stdin_calls returncode killed].
        -- exists ["quit" ++ newline].
           destruct (exit_failed (Some rc)); [|destruct (ls_bestmove st)]; cbn; auto.
        -- exists ["quit" ++ newline]. destruct (poll_on_error p); cbn; auto.
      * exists ["quit" ++ newline]. destruct (poll_on_error p); cbn; auto.
    + exists []. rewrite app_nil_r. destruct (poll_on_error p); cbn; auto.
  - exists []. rewrite app_nil_r. unfold kill_if_running.
    cbn [written stdin_calls returncode killed].
    destruct (poll_on_error p); cbn; auto.
Qed.

(** ** The readiness probe *)

Lemma lower_eq_ignore_case : forall s t,
  lower s = lower t <-> eq_ignore_case s t.
Proof.
  induction s as [|a s IH]; destruct t as [|b t]; cbn [lower eq_ignore_case];
    try (split; [discriminate | contradiction]); [tauto|].
  rewrite <- IH. split.
  - intros H; injection H; auto.
  - intros [-> ->]; reflexivity.
Qed.

(** C8.  [is_service_ready] returns [False], and does not raise, both when
    the [docker] executable is not found and when the inspection command
    fails; when the command succeeds it returns [True] exactly when its
    output, stripped of surrounding white space, equals [true] up to the
    case of the letters. *)
Theorem readiness_probe :
  is_service_ready (Raise FileNotFoundError) = Ok false /\
  is_service_ready (Raise CalledProcessError) = Ok false /\
  forall stdout,
    exists ready,
      is_service_ready (Ok stdout) = Ok ready /\
      (ready = true <-> eq_ignore_case (strip stdout) "true").
Proof.
  split; [reflexivity|]. split; [reflexivity|].
  intros stdout. eexists. split; [reflexivity|].
  rewrite <- lower_eq_ignore_case. apply String.eqb_eq.
Qed.

(** ** The line parser *)

Lemma contains_In x l : contains x l = true <-> In x l.
Proof.
  unfold contains. rewrite existsb_exists. split.
  - intros (y & Hy & Heq). apply String.eqb_eq in Heq. now subst.
  - intros H. exists x. split; [exact H | apply String.eqb_refl].
Qed.

Lemma contains_false x l : ~ In x l -> contains x l = false.
Proof.
  intros H. destruct (contains x l) eqn:E; [|reflexivity].
  now apply contains_In in E.
Qed.

Lemma index_first x : forall pre r,
  ~ In x pre -> index x (pre ++ x :: r) = Some (List.length pre).
Proof.
  induction pre as [|y pre IH]; intros r Hnot; cbn [index app List.length].
  - now rewrite String.eqb_refl.
  - destruct (String.eqb_spec y x) as [->|Hne]; [exfalso; apply Hnot; now left|].
    rewrite IH; [reflexivity|]. intros Hin. apply Hnot. now right.
Qed.

Lemma item_after (pre l : list string) k :
  item (pre ++ l) (List.length pre + k) = item l k.
Proof.
  unfold item. rewrite nth_error_app2 by lia. f_equal. lia.
Qed.

Lemma score_tokens_found pre T V post :
  ~ In "score" pre ->
  score_tokens (pre ++ "score" :: T :: V :: post) = Some (T, V).
Proof.
  intros Hnot. unfold score_tokens. rewrite index_first by exact Hnot.
  now rewrite !item_after.
Qed.

Lemma depth_of_tokens_found pre D post d :
  ~ In "depth" pre ->
  int_of_str D = Some d ->
  depth_of_tokens (pre ++ "depth" :: D :: post) = d.
Proof.
  intros Hnot HD. unfold depth_of_tokens.
  assert (Hc : contains "depth" (pre ++ "depth" :: D :: post) = true).
  { apply contains_In, in_or_app. right. now left. }
  rewrite Hc, index_first by exact Hnot. rewrite item_after.
  unfold item. cbn [nth_error]. now rewrite HD.
Qed.

Lemma parse_with_score line pre T V post :
  split line = (pre ++ "score" :: T :: V :: post)%list ->
  ~ In "score" pre ->
  _parse_evaluation line = evaluation_of T V (depth_of_tokens (split line)).
Proof.
  intros Hsplit Hnot. unfold _parse_evaluation. rewrite Hsplit.
  assert (Hc : contains "score" (pre ++ "score" :: T :: V :: post) = true).
  { apply contains_In, in_or_app. right. now left. }
  rewrite Hc. cbn [negb]. now rewrite score_tokens_found.
Qed.

(** No [score] token: the parser returns [None]. *)
Lemma parse_without_score line :
  ~ In "score" (split line) -> _parse_evaluation line = Ok None.
Proof.
  intros H. unfold _parse_evaluation. now rewrite contains_false.
Qed.

(** Fewer than two tokens after the first [score]: [None]. *)
Lemma parse_score_truncated line pre tail :
  split line = (pre ++ "score" :: tail)%list ->
  ~ In "score" pre ->
  (List.length tail < 2)%nat ->
  _parse_evaluation line = Ok None.
Proof.
  intros Hsplit Hnot Hlen. unfold _parse_evaluation. rewrite Hsplit.
  destruct (negb _); [reflexivity|].
  unfold score_tokens. rewrite index_first by exact Hnot.
  destruct tail as [|t [|t' tail]]; [| |cbn in Hlen; lia].
  - replace (List.length pre + 1)%nat with (List.length pre + 1 + 0)%nat by lia.
    unfold item. rewrite nth_error_app2 by lia.
    replace (List.length pre + 1 + 0 - List.length pre)%nat with 1%nat by lia.
    reflexivity.
  - rewrite (item_after pre ["score"; t] 1), (item_after pre ["score"; t] 2).
    reflexivity.
Qed.

(** The score value is not a number of the kind its type asks for: [None]. *)
Lemma parse_score_not_numeric line pre T V post :
  split line = (pre ++ "score" :: T :: V :: post)%list ->
  ~ In "score" pre ->
  (T = "cp" \/ T = "mate" -> int_of_str V = None) ->
  (T <> "cp" -> T <> "mate" -> float_of_str V = None) ->
  _parse_evaluation line = Ok None.
Proof.
  intros Hsplit Hnot Hint Hfloat.
  rewrite (parse_with_score line pre T V post) by assumption.
  unfold evaluation_of.
  destruct (String.eqb_spec T "cp") as [->|Hcp]; [now rewrite Hint by auto|].
  destruct (String.eqb_spec T "mate") as [->|Hmate]; [now rewrite Hint by auto|].
  now rewrite Hfloat.
Qed.

(** A line the parser returns [None] for leaves the loop state as it was. *)
Lemma loop_skips_unparsed_line st l :
  startswith (strip l) "info" = true ->
  _parse_evaluation (strip l) = Ok None ->
  loop_body st l = Ok (st, Continue).
Proof.
  intros Hinfo Hparse. unfold loop_body. rewrite Hinfo, Hparse.
  destruct (String.eqb (strip l) ""); reflexivity.
Qed.

(** ** Binary64 arithmetic: conversion of an [int] and division by 100.0 *)

Lemma digits2_pos_bounds p :
  2 ^ (Zpos (digits2_pos p) - 1) <= Zpos p < 2 ^ Zpos (digits2_pos p).
Proof.
  induction p as [p IH|p IH|]; cbn [digits2_pos].
  - rewrite Pos2Z.inj_succ.
    replace (Z.succ (Z.pos (digits2_pos p)) - 1) with (Z.succ (Z.pos (digits2_pos p) - 1)) by lia.
    rewrite !Z.pow_succ_r by lia. lia.
  - rewrite Pos2Z.inj_succ.
    replace (Z.succ (Z.pos (digits2_pos p)) - 1) with (Z.succ (Z.pos (digits2_pos p) - 1)) by lia.
    rewrite !Z.pow_succ_r by lia. lia.
  - cbn. lia.
Qed.

Lemma Zdigits2_nonneg m : 0 <= Zdigits2 m.
Proof. destruct m; cbn; lia. Qed.

Lemma Zdigits2_lt_pow m : 0 <= m -> m < 2 ^ Zdigits2 m.
Proof.
  destruct m as [|p|p]; intros H; cbn [Zdigits2]; [cbn; lia | | lia].
  apply digits2_pos_bounds.
Qed.

Lemma Zdigits2_le m k : 0 <= m -> 0 <= k -> m < 2 ^ k -> Zdigits2 m <= k.
Proof.
  destruct m as [|p|p]; intros Hm Hk Hlt; cbn [Zdigits2]; [lia | | lia].
  pose proof (digits2_pos_bounds p) as [Hlo _].
  assert (H : 2 ^ (Zpos (digits2_pos p) - 1) < 2 ^ k) by lia.
  apply Z.pow_lt_mono_r_iff in H; lia.
Qed.

Lemma Zdigits2_div_pow m n :
  0 <= m -> 0 <= n -> Zdigits2 (m / 2 ^ n) <= Z.max 0 (Zdigits2 m - n).
Proof.
  intros Hm Hn. pose proof (Zdigits2_lt_pow m Hm) as Hlt.
  pose proof (Zdigits2_nonneg m) as Hd.
  assert (Hpn : 0 < 2 ^ n) by (apply Z.pow_pos_nonneg; lia).
  destruct (Z.le_gt_cases (Zdigits2 m) n) as [Hle|Hgt].
  - assert (Hsmall : m < 2 ^ n).
    { eapply Z.lt_le_trans; [exact Hlt|]. apply Z.pow_le_mono_r; lia. }
    rewrite Z.div_small by lia. cbn. lia.
  - assert (Hq : m / 2 ^ n < 2 ^ (Zdigits2 m - n)).
    { apply Z.div_lt_upper_bound; [exact Hpn|].
      rewrite <- Z.pow_add_r by lia.
      replace (n + (Zdigits2 m - n)) with (Zdigits2 m) by lia. exact Hlt. }
    assert (0 <= m / 2 ^ n) by (apply Z.div_pos; lia).
    pose proof (Zdigits2_le (m / 2 ^ n) (Zdigits2 m - n)). lia.
Qed.

Lemma shr_1_m mrs : 0 <= shr_m mrs -> shr_m (shr_1 mrs) = shr_m mrs / 2.
Proof.
  destruct mrs as [m r s]. cbn [shr_m]. intros Hm.
  destruct m as [|[p|p|]|p]; cbn [shr_1 shr_m]; try lia; try reflexivity.
  - apply Z.div_unique with (r := 1); lia.
  - apply Z.div_unique with (r := 0); lia.
Qed.

Lemma shr_iter_m n : forall mrs,
  0 <= shr_m mrs -> shr_m (iter_pos shr_1 n mrs) = shr_m mrs / 2 ^ Zpos n.
Proof.
  induction n as [n IH|n IH|]; intros mrs Hm; cbn [iter_pos];
    try (assert (Hp : 0 < 2 ^ Z.pos n) by (apply Z.pow_pos_nonneg; lia)).
  - assert (Hpow : 2 ^ Z.pos n~1 = 2 * 2 ^ Z.pos n * 2 ^ Z.pos n).
    { rewrite <- Z.pow_succ_r, <- Z.pow_add_r by lia. f_equal. lia. }
    assert (H1 : 0 <= shr_m (shr_1 mrs))
      by (rewrite shr_1_m by exact Hm; apply Z.div_pos; lia).
    assert (H2 : 0 <= shr_m (iter_pos shr_1 n (shr_1 mrs)))
      by (rewrite IH by exact H1; apply Z.div_pos; lia).
    rewrite IH, IH, shr_1_m by assumption.
    rewrite !Z.div_div by nia. f_equal. rewrite Hpow. ring.
  - assert (Hpow : 2 ^ Z.pos n~0 = 2 ^ Z.pos n * 2 ^ Z.pos n).
    { rewrite <- Z.pow_add_r by lia. f_equal. lia. }
    assert (H2 : 0 <= shr_m (iter_pos shr_1 n mrs))
      by (rewrite IH by exact Hm; apply Z.div_pos; lia).
    rewrite IH, IH by assumption.
    rewrite !Z.div_div by nia. f_equal. rewrite Hpow. ring.
  - rewrite shr_1_m by exact Hm. reflexivity.
Qed.

Lemma shr_record_of_loc_m m l : shr_m (shr_record_of_loc m l) = m.
Proof. destruct l as [|[]]; reflexivity. Qed.

Lemma shr_fexp_spec m e l :
  0 <= m ->
  0 <= shr_m (fst (shr_fexp 53 1024 m e l)) /\
  Zdigits2 (shr_m (fst (shr_fexp 53 1024 m e l))) <= 53 /\
  snd (shr_fexp 53 1024 m e l) = Z.max e (fexp 53 1024 (Zdigits2 m + e)) /\
  Zdigits2 (shr_m (fst (shr_fexp 53 1024 m e l))) + snd (shr_fexp 53 1024 m e l)
    <= Z.max (snd (shr_fexp 53 1024 m e l)) (Zdigits2 m + e).
Proof.
  intros Hm. unfold shr_fexp, shr.
  pose proof (Zdigits2_nonneg m) as Hd.
  assert (Hf : fexp 53 1024 (Zdigits2 m + e) = Z.max (Zdigits2 m + e - 53) (-1074))
    by reflexivity.
  destruct (fexp 53 1024 (Zdigits2 m + e) - e) as [|n|n] eqn:Hn;
    cbn [fst snd]; rewrite ?shr_record_of_loc_m.
  - repeat split; lia.
  - rewrite shr_iter_m by (rewrite shr_record_of_loc_m; exact Hm).
    rewrite shr_record_of_loc_m.
    pose proof (Zdigits2_div_pow m (Z.pos n) Hm ltac:(lia)) as Hdiv.
    assert (0 <= m / 2 ^ Z.pos n)
      by (apply Z.div_pos; [lia | apply Z.pow_pos_nonneg; lia]).
    repeat split; lia.
  - repeat split; lia.
Qed.

Lemma round_nearest_even_bounds m l :
  m <= round_nearest_even m l <= m + 1.
Proof.
  destruct l as [|[]]; cbn [round_nearest_even]; try lia.
  destruct (Z.even m); lia.
Qed.

Lemma Zdigits2_succ_le m k : 0 <= m -> Zdigits2 m <= k -> Zdigits2 (m + 1) <= k + 1.
Proof.
  intros Hm Hk. pose proof (Zdigits2_nonneg m). pose proof (Zdigits2_lt_pow m Hm).
  assert (2 ^ Zdigits2 m <= 2 ^ k) by (apply Z.pow_le_mono_r; lia).
  apply Zdigits2_le; try lia.
  rewrite Z.pow_add_r, Z.pow_1_r by lia. lia.
Qed.

Lemma Zdigits2_mono m n : 0 <= m <= n -> Zdigits2 m <= Zdigits2 n.
Proof.
  intros H. apply Zdigits2_le; [lia | apply Zdigits2_nonneg |].
  pose proof (Zdigits2_lt_pow n). lia.
Qed.

(** What [binary_round_aux] can return on a non-negative mantissa. *)
Lemma binary_round_aux_shape sx mx ex lx :
  0 <= mx ->
  match binary_round_aux 53 1024 sx mx ex lx with
  | S754_zero _ => True
  | S754_infinity _ =>
      971 < Z.max ex (fexp 53 1024 (Zdigits2 mx + ex)) \/
      1024 < Zdigits2 mx + ex + 1
  | S754_nan => False
  | S754_finite _ m e => Zdigits2 (Zpos m) <= 53 /\ e <= 971
  end.
Proof.
  intros Hmx. unfold binary_round_aux.
  pose proof (shr_fexp_spec mx ex lx Hmx) as (H1 & H2 & H3 & H4).
  destruct (shr_fexp 53 1024 mx ex lx) as [mrs' e'] eqn:E1. cbn [fst snd] in *.
  pose proof (round_nearest_even_bounds (shr_m mrs') (loc_of_shr_record mrs')) as Hr.
  set (mr := round_nearest_even (shr_m mrs') (loc_of_shr_record mrs')) in *.
  assert (Hmr : 0 <= mr) by lia.
  pose proof (shr_fexp_spec mr e' loc_Exact Hmr) as (K1 & K2 & K3 & K4).
  destruct (shr_fexp 53 1024 mr e' loc_Exact) as [mrs'' e''] eqn:E2.
  cbn [fst snd] in *.
  assert (Hdr : Zdigits2 mr <= Zdigits2 (shr_m mrs') + 1).
  { eapply Z.le_trans; [apply (Zdigits2_mono mr (shr_m mrs' + 1)); lia|].
    apply Zdigits2_succ_le; lia. }
  assert (Hf1 : fexp 53 1024 (Zdigits2 mx + ex) = Z.max (Zdigits2 mx + ex - 53) (-1074))
    by reflexivity.
  assert (Hf2 : fexp 53 1024 (Zdigits2 mr + e') = Z.max (Zdigits2 mr + e' - 53) (-1074))
    by reflexivity.
  destruct (shr_m mrs'') as [|m|m] eqn:Em; [exact I | | lia].
  destruct (Z.leb_spec e'' (1024 - 53)) as [Hle|Hgt].
  - split; lia.
  - pose proof (Zdigits2_nonneg (shr_m mrs')). lia.
Qed.

Lemma digits2_pos_iter_xO m d :
  digits2_pos (Pos.iter xO m d) = (digits2_pos m + d)%positive.
Proof.
  induction d as [|d IH] using Pos.peano_ind.
  - cbn. lia.
  - rewrite Pos.iter_succ. cbn [digits2_pos]. rewrite IH. lia.
Qed.

Lemma shl_align_spec mx ex ex' :
  Zdigits2 (Zpos (fst (shl_align mx ex ex'))) + snd (shl_align mx ex ex')
    = Zdigits2 (Zpos mx) + ex /\
  snd (shl_align mx ex ex') <= ex.
Proof.
  unfold shl_align. destruct (ex' - ex) as [|d|d] eqn:Hd; cbn [fst snd Zdigits2];
    try (split; lia).
  rewrite digits2_pos_iter_xO. split; lia.
Qed.

(** Rounding a positive integer mantissa: never a NaN, and an infinity only
    beyond the exponent range. *)
Lemma binary_round_shape sx mx ex :
  match binary_round 53 1024 sx mx ex with
  | S754_zero _ => True
  | S754_infinity _ => 971 < ex \/ 1023 < Zdigits2 (Zpos mx) + ex
  | S754_nan => False
  | S754_finite _ m e => Zdigits2 (Zpos m) <= 53 /\ e <= 971
  end.
Proof.
  unfold binary_round.
  pose proof (shl_align_spec mx ex (fexp 53 1024 (Zpos (digits2_pos mx) + ex)))
    as [Hsum Hle].
  destruct (shl_align mx ex _) as [mz ez]. cbn [fst snd] in *.
  pose proof (binary_round_aux_shape sx (Zpos mz) ez loc_Exact ltac:(lia)) as H.
  destruct (binary_round_aux 53 1024 sx (Z.pos mz) ez loc_Exact); try exact H.
  assert (Hf : fexp 53 1024 (Zdigits2 (Z.pos mz) + ez)
               = Z.max (Zdigits2 (Z.pos mz) + ez - 53) (-1074)) by reflexivity.
  lia.
Qed.

(** The quotient of a double by 100.0, before rounding. *)
Lemma div_by_100_core m e :
  Zdigits2 (Zpos m) <= 53 -> e <= 971 ->
  let '(q, e', _) := SFdiv_core_binary 53 1024 (Zpos m) e (Zpos 7036874417766400) (-46) in
  0 <= q /\ e' <= 964 /\ Zdigits2 q + e' <= 1023.
Proof.
  intros Hd He. unfold SFdiv_core_binary.
  set (m2 := Z.pos 7036874417766400).
  assert (Hd2 : Zdigits2 m2 = 53) by reflexivity. rewrite Hd2.
  set (e' := Z.min (fexp 53 1024 (Zdigits2 (Z.pos m) + e - (53 + -46))) (e - -46)).
  assert (Hf : fexp 53 1024 (Zdigits2 (Z.pos m) + e - (53 + -46))
               = Z.max (Zdigits2 (Z.pos m) + e - (53 + -46) - 53) (-1074)) by reflexivity.
  pose proof (Zdigits2_nonneg (Z.pos m)) as Hdn.
  assert (He' : e' <= 964) by (unfold e'; lia).
  assert (Hs : 0 <= e - -46 - e') by (unfold e'; lia).
  set (s := e - -46 - e') in *.
  set (m' := match s with
             | 0 => Z.pos m
             | Z.pos _ => Z.shiftl (Z.pos m) s
             | Z.neg _ => 0
             end).
  assert (Hm' : m' = Z.pos m * 2 ^ s).
  { unfold m'. destruct s as [|p|p] eqn:Es; [cbn; lia | | lia].
    now rewrite Z.shiftl_mul_pow2 by lia. }
  assert (Hps : 0 < 2 ^ s) by (apply Z.pow_pos_nonneg; lia).
  assert (Hm'pos : 0 <= m') by (rewrite Hm'; nia).
  assert (Hq : m' / m2 = fst (Z.div_eucl m' m2)) by reflexivity.
  destruct (Z.div_eucl m' m2) as [q r] eqn:Ediv. cbn [fst] in Hq. subst q.
  assert (Hm2 : 2 ^ 52 <= m2) by (unfold m2; cbn; lia).
  assert (Hqpos : 0 <= m' / m2) by (apply Z.div_pos; unfold m2; lia).
  assert (Hmlt : Z.pos m < 2 ^ 53).
  { pose proof (Zdigits2_lt_pow (Z.pos m) ltac:(lia)).
    assert (2 ^ Zdigits2 (Z.pos m) <= 2 ^ 53) by (apply Z.pow_le_mono_r; lia). lia. }
  assert (Hqlt : m' / m2 < 2 ^ (1 + s)).
  { apply Z.div_lt_upper_bound; [unfold m2; lia|].
    rewrite Hm', Z.pow_add_r, Z.pow_1_r by lia.
    assert (Z.pos m * 2 ^ s < 2 ^ 53 * 2 ^ s) by nia.
    assert (2 ^ 53 * 2 ^ s <= m2 * (2 * 2 ^ s)) by (change (2 ^ 53) with (2 * 2 ^ 52); nia).
    lia. }
  pose proof (Zdigits2_le (m' / m2) (1 + s) Hqpos ltac:(lia) Hqlt).
  repeat split; [exact Hqpos | exact He' | unfold s in *; lia].
Qed.

Lemma float_of_int_shape v x :
  float_of_int v = Ok x ->
  match x with
  | S754_zero _ => True
  | S754_finite _ m e => Zdigits2 (Zpos m) <= 53 /\ e <= 971
  | _ => False
  end.
Proof.
  unfold float_of_int, binary_normalize. destruct v as [|m|m].
  - intros H. injection H as <-. exact I.
  - pose proof (binary_round_shape false m 0) as Hs.
    change (binary_round 53 1024 false m 0) with (binary_round prec emax false m 0) in Hs.
    destruct (binary_round prec emax false m 0); intros H;
      try discriminate; injection H as <-; exact Hs.
  - pose proof (binary_round_shape true m 0) as Hs.
    change (binary_round 53 1024 true m 0) with (binary_round prec emax true m 0) in Hs.
    destruct (binary_round prec emax true m 0); intros H;
      try discriminate; injection H as <-; exact Hs.
Qed.

Lemma float_of_int_finite v x : float_of_int v = Ok x -> is_finite x = true.
Proof.
  intros H. apply float_of_int_shape in H. destruct x; [reflexivity | | | reflexivity];
    contradiction.
Qed.

(** Every [int] below [2 ^ 1023] in magnitude converts. *)
Lemma float_of_int_in_range v :
  Z.abs v < 2 ^ 1023 -> exists x, float_of_int v = Ok x.
Proof.
  intros Hv.
  assert (Hd : Zdigits2 v <= 1023).
  { destruct v as [|m|m]; cbn [Zdigits2]; [lia | |];
      apply (Zdigits2_le (Zpos m) 1023); lia. }
  clear Hv. unfold float_of_int, binary_normalize.
  destruct v as [|m|m]; [eexists; reflexivity | |]; cbn [Zdigits2] in Hd.
  - pose proof (binary_round_shape false m 0) as Hs.
    change (binary_round 53 1024 false m 0) with (binary_round prec emax false m 0) in Hs.
    destruct (binary_round prec emax false m 0) as [s|s| |s m' e'].
    + eexists; reflexivity.
    + exfalso. cbn [Zdigits2] in Hs. lia.
    + contradiction.
    + eexists; reflexivity.
  - pose proof (binary_round_shape true m 0) as Hs.
    change (binary_round 53 1024 true m 0) with (binary_round prec emax true m 0) in Hs.
    destruct (binary_round prec emax true m 0) as [s|s| |s m' e'].
    + eexists; reflexivity.
    + exfalso. cbn [Zdigits2] in Hs. lia.
    + contradiction.
    + eexists; reflexivity.
Qed.

(** A converted [int] divided by 100.0 is again a finite double. *)
Lemma div_by_100_finite v x :
  float_of_int v = Ok x ->
  exists y, float_truediv x float_100 = Ok y /\ is_finite y = true.
Proof.
  intros H. apply float_of_int_shape in H.
  unfold float_truediv, float_100. cbn [is_zero].
  destruct x as [s|s| |s m e]; try contradiction.
  - eexists. split; reflexivity.
  - destruct H as [Hd He]. eexists. split; [reflexivity|].
    cbn [SFdiv].
    pose proof (div_by_100_core m e Hd He) as Hcore.
    change (SFdiv_core_binary prec emax (Z.pos m) e (Z.pos 7036874417766400) (-46))
      with (SFdiv_core_binary 53 1024 (Z.pos m) e (Z.pos 7036874417766400) (-46)).
    destruct (SFdiv_core_binary 53 1024 (Z.pos m) e (Z.pos 7036874417766400) (-46))
      as [[q e'] l].
    destruct Hcore as (Hq & He' & Hsum).
    pose proof (binary_round_aux_shape (xorb s false) q e' l Hq) as Hs.
    change (binary_round_aux prec emax (xorb s false) q e' l)
      with (binary_round_aux 53 1024 (xorb s false) q e' l).
    assert (Hf : fexp 53 1024 (Zdigits2 q + e') = Z.max (Zdigits2 q + e' - 53) (-1074))
      by reflexivity.
    destruct (binary_round_aux 53 1024 (xorb s false) q e' l);
      [reflexivity | lia | contradiction | reflexivity].
Qed.

Lemma cp_value_finite v y :
  int_truediv_float v float_100 = Ok y -> is_finite y = true.
Proof.
  unfold int_truediv_float, bind. intros H.
  destruct (float_of_int v) as [x|e] eqn:Hx; [|discriminate].
  destruct (div_by_100_finite v x Hx) as (y' & Hy & Hfin). congruence.
Qed.

Lemma cp_value_in_range v :
  Z.abs v < 2 ^ 1023 -> exists y, int_truediv_float v float_100 = Ok y.
Proof.
  intros Hv. destruct (float_of_int_in_range v Hv) as (x & Hx).
  destruct (div_by_100_finite v x Hx) as (y & Hy & _).
  exists y. unfold int_truediv_float, bind. now rewrite Hx.
Qed.

(** ** Decimal literals: [int(str(n))] gives [n] back *)

Ltac digit_step c v :=
  replace (Ascii.eqb c "_") with false by reflexivity;
  replace (isdigit c) with true by reflexivity;
  replace (digit_value c) with v by reflexivity.

Lemma scan_digits_acc d : forall prev acc n,
  (d = Decimal.Nil -> prev <> "_"%char) ->
  scan_digits (NilEmpty.string_of_uint d) prev (Zpos acc) n =
  Some (Zpos (Pos.of_uint_acc d acc), (n + Decimal.nb_digits d)%nat).
Proof.
  induction d; intros prev acc n Hprev;
    cbn [NilEmpty.string_of_uint scan_digits Pos.of_uint_acc Decimal.nb_digits].
  - destruct (Ascii.eqb_spec prev "_"); [now exfalso; apply Hprev|].
    f_equal. f_equal. lia.
  - digit_step "0"%char 0.
    replace (10 * Z.pos acc + 0) with (Z.pos (10 * acc)) by lia.
    rewrite IHd by discriminate. f_equal. f_equal. lia.
  - digit_step "1"%char 1.
    replace (10 * Z.pos acc + 1) with (Z.pos (1 + 10 * acc)) by lia.
    rewrite IHd by discriminate. f_equal. f_equal. lia.
  - digit_step "2"%char 2.
    replace (10 * Z.pos acc + 2) with (Z.pos (2 + 10 * acc)) by lia.
    rewrite IHd by discriminate. f_equal. f_equal. lia.
  - digit_step "3"%char 3.
    replace (10 * Z.pos acc + 3) with (Z.pos (3 + 10 * acc)) by lia.
    rewrite IHd by discriminate. f_equal. f_equal. lia.
  - digit_step "4"%char 4.
    replace (10 * Z.pos acc + 4) with (Z.pos (4 + 10 * acc)) by lia.
    rewrite IHd by discriminate. f_equal. f_equal. lia.
  - digit_step "5"%char 5.
    replace (10 * Z.pos acc + 5) with (Z.pos (5 + 10 * acc)) by lia.
    rewrite IHd by discriminate. f_equal. f_equal. lia.
  - digit_step "6"%char 6.
    replace (10 * Z.pos acc + 6) with (Z.pos (6 + 10 * acc)) by lia.
    rewrite IHd by discriminate. f_equal. f_equal. lia.
  - digit_step "7"%char 7.
    replace (10 * Z.pos acc + 7) with (Z.pos (7 + 10 * acc)) by lia.
    rewrite IHd by discriminate. f_equal. f_equal. lia.
  - digit_step "8"%char 8.
    replace (10 * Z.pos acc + 8) with (Z.pos (8 + 10 * acc)) by lia.
    rewrite IHd by discriminate. f_equal. f_equal. lia.
  - digit_step "9"%char 9.
    replace (10 * Z.pos acc + 9) with (Z.pos (9 + 10 * acc)) by lia.
    rewrite IHd by discriminate. f_equal. f_equal. lia.
Qed.

Lemma scan_digits_zero d : forall prev n,
  (d = Decimal.Nil -> prev <> "_"%char) ->
  scan_digits (NilEmpty.string_of_uint d) prev 0 n =
  Some (Z.of_N (Pos.of_uint d), (n + Decimal.nb_digits d)%nat).
Proof.
  induction d; intros prev n Hprev;
    cbn [NilEmpty.string_of_uint scan_digits Pos.of_uint Decimal.nb_digits].
  - destruct (Ascii.eqb_spec prev "_"); [now exfalso; apply Hprev|].
    f_equal. f_equal. lia.
  - digit_step "0"%char 0. cbn [Z.mul Z.add].
    rewrite IHd by discriminate. f_equal. f_equal. lia.
  - digit_step "1"%char 1. change (10 * 0 + 1) with (Z.pos 1).
    rewrite scan_digits_acc by discriminate. f_equal. f_equal. lia.
  - digit_step "2"%char 2. change (10 * 0 + 2) with (Z.pos 2).
    rewrite scan_digits_acc by discriminate. f_equal. f_equal. lia.
  - digit_step "3"%char 3. change (10 * 0 + 3) with (Z.pos 3).
    rewrite scan_digits_acc by discriminate. f_equal. f_equal. lia.
  - digit_step "4"%char 4. change (10 * 0 + 4) with (Z.pos 4).
    rewrite scan_digits_acc by discriminate. f_equal. f_equal. lia.
  - digit_step "5"%char 5. change (10 * 0 + 5) with (Z.pos 5).
    rewrite scan_digits_acc by discriminate. f_equal. f_equal. lia.
  - digit_step "6"%char 6. change (10 * 0 + 6) with (Z.pos 6).
    rewrite scan_digits_acc by discriminate. f_equal. f_equal. lia.
  - digit_step "7"%char 7. change (10 * 0 + 7) with (Z.pos 7).
    rewrite scan_digits_acc by discriminate. f_equal. f_equal. lia.
  - digit_step "8"%char 8. change (10 * 0 + 8) with (Z.pos 8).
    rewrite scan_digits_acc by discriminate. f_equal. f_equal. lia.
  - digit_step "9"%char 9. change (10 * 0 + 9) with (Z.pos 9).
    rewrite scan_digits_acc by discriminate. f_equal. f_equal. lia.
Qed.

Lemma int_of_digits_uint d :
  d <> Decimal.Nil ->
  (Decimal.nb_digits d <= 640)%nat ->
  int_of_digits (NilEmpty.string_of_uint d) = Some (Z.of_N (Pos.of_uint d)).
Proof.
  intros Hnil Hlen. unfold int_of_digits.
  rewrite scan_digits_zero by discriminate. cbn [Nat.add].
  assert (Hlim : ((int_str_digits_threshold <? Decimal.nb_digits d)%nat
                  && (int_max_str_digits <? Decimal.nb_digits d)%nat) = false).
  { apply andb_false_intro1. apply Nat.ltb_ge. exact Hlen. }
  rewrite Hlim. destruct d; [contradiction| ..]; reflexivity.
Qed.

Lemma space_to_ascii_uint d :
  space_to_ascii (NilEmpty.string_of_uint d) = NilEmpty.string_of_uint d.
Proof.
  induction d; cbn [NilEmpty.string_of_uint space_to_ascii];
    [reflexivity | ..]; rewrite IHd; reflexivity.
Qed.

Lemma rstrip_ascii_uint d :
  rstrip_by isspace_ascii (NilEmpty.string_of_uint d) = NilEmpty.string_of_uint d.
Proof.
  induction d; cbn [NilEmpty.string_of_uint rstrip_by];
    [reflexivity | ..]; rewrite IHd;
    destruct (NilEmpty.string_of_uint d); reflexivity.
Qed.

Lemma strip_ascii_uint d :
  strip_ascii (space_to_ascii (NilEmpty.string_of_uint d)) = NilEmpty.string_of_uint d.
Proof.
  rewrite space_to_ascii_uint. unfold strip_ascii.
  replace (lstrip_by isspace_ascii (NilEmpty.string_of_uint d))
    with (NilEmpty.string_of_uint d) by (destruct d; reflexivity).
  apply rstrip_ascii_uint.
Qed.

Lemma of_uint_acc_lower d : forall acc,
  Zpos acc * 10 ^ Z.of_nat (Decimal.nb_digits d) <= Zpos (Pos.of_uint_acc d acc).
Proof.
  induction d; intros acc; cbn [Pos.of_uint_acc Decimal.nb_digits];
    [cbn; lia | ..];
    rewrite Nat2Z.inj_succ, Z.pow_succ_r by lia;
    match goal with
    | |- _ <= Zpos (Pos.of_uint_acc d ?a) => specialize (IHd a)
    end;
    assert (0 < 10 ^ Z.of_nat (Decimal.nb_digits d)) by (apply Z.pow_pos_nonneg; lia);
    nia.
Qed.

Lemma to_uint_head p : forall l, Pos.to_uint p <> Decimal.D0 l.
Proof.
  intros l Hd.
  assert (Hnorm : Pos.to_uint p = Decimal.unorm (Pos.to_uint p)).
  { rewrite <- DecimalPos.Unsigned.to_of, DecimalPos.Unsigned.of_to. reflexivity. }
  rewrite Hd, DecimalFacts.unorm_D0 in Hnorm. unfold Decimal.unorm in Hnorm.
  destruct (Decimal.nzhead l) eqn:Hl.
  - injection Hnorm as ->. now apply (DecimalPos.Unsigned.to_uint_nonzero p).
  - exact (DecimalFacts.nzhead_nonzero l _ (eq_trans Hl (eq_sym Hnorm))).
  - rewrite <- Hnorm in Hl. discriminate.
  - rewrite <- Hnorm in Hl. discriminate.
  - rewrite <- Hnorm in Hl. discriminate.
  - rewrite <- Hnorm in Hl. discriminate.
  - rewrite <- Hnorm in Hl. discriminate.
  - rewrite <- Hnorm in Hl. discriminate.
  - rewrite <- Hnorm in Hl. discriminate.
  - rewrite <- Hnorm in Hl. discriminate.
  - rewrite <- Hnorm in Hl. discriminate.
Qed.

Lemma nb_digits_to_uint p k :
  Zpos p < 10 ^ Z.of_nat k -> (Decimal.nb_digits (Pos.to_uint p) <= k)%nat.
Proof.
  intros Hlt.
  pose proof (DecimalPos.Unsigned.of_to p) as Hof.
  pose proof (to_uint_head p) as Hhead.
  pose proof (DecimalPos.Unsigned.to_uint_nonnil p) as Hnil.
  destruct (Pos.to_uint p) as [|l|l|l|l|l|l|l|l|l|l] eqn:Hd;
    [contradiction | now exfalso; apply (Hhead l) | ..];
    cbn [Pos.of_uint] in Hof; injection Hof as Hof;
    match type of Hof with
    | Pos.of_uint_acc l ?a = _ => pose proof (of_uint_acc_lower l a) as Hlow
    end;
    rewrite Hof in Hlow; cbn [Decimal.nb_digits];
    assert (Hpow : 10 ^ Z.of_nat (Decimal.nb_digits l) < 10 ^ Z.of_nat k)
      by (assert (0 < 10 ^ Z.of_nat (Decimal.nb_digits l))
            by (apply Z.pow_pos_nonneg; lia); nia);
    apply Z.pow_lt_mono_r_iff in Hpow; lia.
Qed.

(** For every integer of at most 640 digits, [int(str(n)) == n]. *)
Lemma int_of_str_str_of_int n :
  Z.abs n < 10 ^ 640 -> int_of_str (str_of_int n) = Some n.
Proof.
  intros Hn. unfold str_of_int, int_of_str.
  destruct n as [|p|p]; [reflexivity | |];
    cbn [Z.to_int NilZero.string_of_int];
    pose proof (DecimalPos.Unsigned.to_uint_nonnil p) as Hnil;
    pose proof (to_uint_head p) as Hhead;
    pose proof (nb_digits_to_uint p 640 ltac:(cbn [Z.abs] in Hn; exact Hn)) as Hlen;
    pose proof (int_of_digits_uint (Pos.to_uint p) Hnil Hlen) as Hint;
    rewrite DecimalPos.Unsigned.of_to in Hint;
    replace (NilZero.string_of_uint (Pos.to_uint p))
      with (NilEmpty.string_of_uint (Pos.to_uint p))
      by (unfold NilZero.string_of_uint; destruct (Pos.to_uint p);
          [contradiction | reflexivity ..]).
  - rewrite strip_ascii_uint.
    destruct (Pos.to_uint p); [contradiction | exact Hint ..].
  - cbn [space_to_ascii]. unfold strip_ascii.
    replace (if (128 <=? code "-")%N && isspace "-" then " "%char else "-"%char)
      with "-"%char by reflexivity.
    cbn [lstrip_by]. replace (isspace_ascii "-") with false by reflexivity.
    cbn [rstrip_by]. rewrite space_to_ascii_uint, rstrip_ascii_uint.
    replace (isspace_ascii "-") with false by reflexivity.
    destruct (NilEmpty.string_of_uint (Pos.to_uint p)) eqn:Hs.
    + destruct (Pos.to_uint p); [contradiction | discriminate ..].
    + cbv iota beta. rewrite Hint. reflexivity.
Qed.

(** ** The depth in the script *)

(** [str()] renders every integer of at most 4300 digits. *)
Lemma str_int_in_range n :
  Z.abs n < 10 ^ 4300 -> str_int n = Some (str_of_int n).
Proof.
  intros H. unfold str_int.
  assert (Hd : (int_digits n <= int_max_str_digits)%nat).
  { destruct n as [|q|q]; cbn [int_digits];
      [clear H; apply Nat.leb_le; reflexivity | ..];
      apply nb_digits_to_uint; exact H. }
  clear H. apply Nat.ltb_ge in Hd. rewrite Hd. now rewrite andb_false_r.
Qed.

Lemma build_commands_in_range fen depth moves :
  Z.abs depth < 10 ^ 4300 ->
  build_commands fen depth moves = Some (commands_of fen depth moves).
Proof.
  intros H. unfold build_commands. now rewrite (str_int_in_range depth H).
Qed.

Lemma build_commands_inv fen depth moves commands :
  build_commands fen depth moves = Some commands ->
  commands = commands_of fen depth moves.
Proof.
  unfold build_commands. destruct (str_int depth); [|discriminate].
  intros H. now injection H as <-.
Qed.

Lemma script_text_commands fen depth moves :
  map (fun c => c ++ newline) (commands_of fen depth moves) =
  script_text fen depth (moves_given moves).
Proof. now rewrite commands_of_eq. Qed.

(** C4 (amended).  For every request whose depth has at most 4300 decimal
    digits, the commands are [uci], [isready], [ucinewgame], one [position]
    command ([position startpos] for the start position without moves,
    [position startpos moves m1 m2 ...] with moves, [position fen <fen>] and
    [position fen <fen> moves m1 ...] for another position, the moves joined
    by single blanks in the order given) and [go depth <depth>]; a process
    that was started with both pipes and takes the script has been written
    exactly these, one per line and in this order, when the read loop
    starts, and they head whatever the session writes. *)
Theorem script_transmitted_in_order :
  forall p fen depth moves,
    Z.abs depth < 10 ^ 4300 ->
    stdin_present p = true -> stdout_present p = true ->
    stdin_accepts p 6 ->
    build_commands fen depth moves =
      Some [ "uci"; "isready"; "ucinewgame";
             position_command fen (moves_given moves);
             "go depth " ++ str_of_int depth ] /\
    commands_of fen depth moves =
      [ "uci"; "isready"; "ucinewgame";
        position_command fen (moves_given moves);
        "go depth " ++ str_of_int depth ] /\
    send_script p (commands_of fen depth moves) io_start =
      (Ok tt, {| written := [ "uci" ++ newline; "isready" ++ newline;
                              "ucinewgame" ++ newline;
                              position_command fen (moves_given moves) ++ newline;
                              "go depth " ++ str_of_int depth ++ newline ];
                 stdin_calls := 6; returncode := None; killed := false |}) /\
    firstn 5 (written (snd (_query_engine (Ok p) fen depth moves))) =
      [ "uci" ++ newline; "isready" ++ newline; "ucinewgame" ++ newline;
        position_command fen (moves_given moves) ++ newline;
        "go depth " ++ str_of_int depth ++ newline ].
Proof.
  intros p fen depth moves Hdepth Hin Hout Hacc.
  split.
  { rewrite (build_commands_in_range fen depth moves Hdepth).
    f_equal. apply commands_of_eq. }
  clear Hdepth.
  split; [apply commands_of_eq|]. split.
  - now rewrite send_script_ok.
  - destruct (query_engine_written p fen depth moves Hin Hout Hacc)
      as (tail & -> & _).
    reflexivity.
Qed.

Lemma script_transmitted_in_order_witness :
  build_commands "startpos" 12 (Some ["e2e4"; "c7c5"; "g1f3"]) =
    Some [ "uci"; "isready"; "ucinewgame";
           "position startpos moves e2e4 c7c5 g1f3"; "go depth 12" ] /\
  firstn 5 (written (snd (_query_engine
                            (Ok (engine ["bestmove e7e5" ++ newline] 0 ""))
                            "startpos" 12 (Some ["e2e4"; "c7c5"; "g1f3"])))) =
  [ "uci" ++ newline; "isready" ++ newline; "ucinewgame" ++ newline;
    "position startpos moves e2e4 c7c5 g1f3" ++ newline;
    "go depth 12" ++ newline ].
Proof.
  assert (Hdepth : Z.abs 12 < 10 ^ 4300) by (vm_compute; reflexivity).
  split.
  - apply (script_transmitted_in_order
             (engine ["bestmove e7e5" ++ newline] 0 "")
             "startpos" 12 (Some ["e2e4"; "c7c5"; "g1f3"]) Hdepth);
      first [reflexivity | exact I].
  - apply (script_transmitted_in_order
             (engine ["bestmove e7e5" ++ newline] 0 "")
             "startpos" 12 (Some ["e2e4"; "c7c5"; "g1f3"]) Hdepth);
      first [reflexivity | exact I].
Defined.

(** C4, as stated for any depth, fails: for the depth [10 ^ 4300], of 4301
    digits, [str()] refuses the conversion, so that line 101 raises
    [ValueError]: no [go depth] command exists and the engine is not
    started. *)
Lemma script_not_built_for_huge_depth :
  int_digits (10 ^ 4300) = 4301%nat /\
  str_int (10 ^ 4300) = None /\
  build_commands "startpos" (10 ^ 4300) None = None.
Proof.
  assert (Hdigits : int_digits (10 ^ 4300) = 4301%nat) by (vm_compute; reflexivity).
  split; [exact Hdigits|].
  assert (Hstr : str_int (10 ^ 4300) = None)
    by (unfold str_int; rewrite Hdigits; reflexivity).
  split; [exact Hstr|].
  unfold build_commands. now rewrite Hstr.
Qed.

(** ** Scores and depths the parser produces *)

Lemma int_of_str_not_word (w : string) v :
  int_of_str w = Some v -> w <> "score" /\ w <> "depth".
Proof. intros H. split; intros ->; discriminate. Qed.

(** C3 (amended).  For every line whose tokens hold [score cp <v>] after no
    earlier [score], and [depth <d>] after no earlier [depth], in either
    order, where [<v>] and [<d>] are literals that [int()] reads as the
    integers [v] and [d] and [v / 100.0] has a value [x] (the conversion of
    [v] to a float does not overflow), the parser returns exactly the
    evaluation [{cp, x, d}]; this covers every integer [v] below [2 ^ 1023]
    in magnitude and every integer [d] of at most 640 digits, written in
    decimal.  For every line with [score mate <v>] the parsed score is the
    integer [v] itself, with no division. *)
Theorem parsed_cp_and_mate_scores :
  (forall line pre mid post V D v d x,
     (split line = (pre ++ "score" :: "cp" :: V :: mid ++ "depth" :: D :: post)%list
      /\ ~ In "depth" mid
      \/
      split line = (pre ++ "depth" :: D :: mid ++ "score" :: "cp" :: V :: post)%list
      /\ ~ In "score" mid) ->
     ~ In "score" pre -> ~ In "depth" pre ->
     int_of_str V = Some v -> int_of_str D = Some d ->
     int_truediv_float v float_100 = Ok x ->
     _parse_evaluation line =
     Ok (Some {| score_type := "cp"; score_value := Float x; depth := d |})) /\
  (forall v d,
     Z.abs v < 2 ^ 1023 -> Z.abs d < 10 ^ 640 ->
     int_of_str (str_of_int v) = Some v /\
     int_of_str (str_of_int d) = Some d /\
     exists x, int_truediv_float v float_100 = Ok x) /\
  (forall line pre post V v,
     split line = (pre ++ "score" :: "mate" :: V :: post)%list ->
     ~ In "score" pre ->
     int_of_str V = Some v ->
     exists d,
       _parse_evaluation line =
       Ok (Some {| score_type := "mate"; score_value := Int v; depth := d |})).
Proof.
  split; [|split].
  - intros line pre mid post V D v d x Hshape Hs Hd HV HD Hx.
    destruct (int_of_str_not_word V v HV) as [_ HVd].
    destruct (int_of_str_not_word D d HD) as [HDs _].
    destruct Hshape as [[Hsplit Hmid]|[Hsplit Hmid]].
    + rewrite (parse_with_score line pre "cp" V (mid ++ "depth" :: D :: post))
        by assumption.
      rewrite Hsplit.
      replace (pre ++ "score" :: "cp" :: V :: mid ++ "depth" :: D :: post)%list
        with ((pre ++ "score" :: "cp" :: V :: mid) ++ "depth" :: D :: post)%list
        by (rewrite <- app_assoc; reflexivity).
      rewrite (depth_of_tokens_found _ D post d); [| |exact HD].
      * unfold evaluation_of. cbn [String.eqb Ascii.eqb Bool.eqb]. rewrite HV.
        unfold bind. now rewrite Hx.
      * intros Hin. apply in_app_or in Hin. destruct Hin as [Hin|Hin]; [now apply Hd|].
        cbn [In] in Hin.
        destruct Hin as [Hin|[Hin|[Hin|Hin]]];
          [discriminate | discriminate | now apply HVd | now apply Hmid].
    + replace (pre ++ "depth" :: D :: mid ++ "score" :: "cp" :: V :: post)%list
        with ((pre ++ "depth" :: D :: mid) ++ "score" :: "cp" :: V :: post)%list
        in Hsplit by (rewrite <- app_assoc; reflexivity).
      rewrite (parse_with_score line (pre ++ "depth" :: D :: mid) "cp" V post);
        [|exact Hsplit|].
      * rewrite Hsplit, <- app_assoc. cbn [app].
        rewrite (depth_of_tokens_found pre D _ d) by assumption.
        unfold evaluation_of. cbn [String.eqb Ascii.eqb Bool.eqb]. rewrite HV.
        unfold bind. now rewrite Hx.
      * intros Hin. apply in_app_or in Hin. destruct Hin as [Hin|Hin]; [now apply Hs|].
        cbn [In] in Hin.
        destruct Hin as [Hin|[Hin|Hin]];
          [discriminate | now apply HDs | now apply Hmid].
  - intros v d Hv Hd.
    assert (Hpow : 2 ^ 1023 < 10 ^ 640) by (apply Z.ltb_lt; vm_compute; reflexivity).
    split; [apply int_of_str_str_of_int; lia|].
    split; [apply int_of_str_str_of_int; exact Hd|].
    apply cp_value_in_range; exact Hv.
  - intros line pre post V v Hsplit Hs HV.
    rewrite (parse_with_score line pre "mate" V post) by assumption.
    unfold evaluation_of. cbn [String.eqb Ascii.eqb Bool.eqb]. rewrite HV.
    eexists. reflexivity.
Qed.

Lemma parsed_cp_and_mate_scores_witness :
  _parse_evaluation "info depth 4 seldepth 6 multipv 1 score cp -25 nodes 1000 pv e2e4" =
    Ok (Some {| score_type := "cp";
                score_value := Float (S754_finite true 4503599627370496 (-54));
                depth := 4 |}) /\
  _parse_evaluation "info score cp 40 depth 5" =
    Ok (Some {| score_type := "cp"; score_value := Float float_0_4; depth := 5 |}) /\
  (int_of_str (str_of_int (-25)) = Some (-25) /\
   int_of_str (str_of_int 4) = Some 4 /\
   exists x, int_truediv_float (-25) float_100 = Ok x) /\
  (exists d,
     _parse_evaluation "info depth 9 score mate -3 pv h5f7" =
     Ok (Some {| score_type := "mate"; score_value := Int (-3); depth := d |})).
Proof.
  split; [|split; [|split]].
  - apply (proj1 parsed_cp_and_mate_scores
             "info depth 4 seldepth 6 multipv 1 score cp -25 nodes 1000 pv e2e4"
             ["info"] ["seldepth"; "6"; "multipv"; "1"] ["nodes"; "1000"; "pv"; "e2e4"]
             "-25" "4" (-25) 4 (S754_finite true 4503599627370496 (-54))).
    + right. split; [reflexivity|].
      cbn [In]. intros [H|[H|[H|[H|H]]]]; first [discriminate | contradiction].
    + cbn [In]. intros [H|H]; first [discriminate | contradiction].
    + cbn [In]. intros [H|H]; first [discriminate | contradiction].
    + reflexivity.
    + reflexivity.
    + vm_compute. reflexivity.
  - apply (proj1 parsed_cp_and_mate_scores "info score cp 40 depth 5"
             ["info"] [] [] "40" "5" 40 5 float_0_4).
    + left. split; [reflexivity | intros []].
    + cbn [In]. intros [H|H]; first [discriminate | contradiction].
    + cbn [In]. intros [H|H]; first [discriminate | contradiction].
    + reflexivity.
    + reflexivity.
    + vm_compute. reflexivity.
  - apply (proj1 (proj2 parsed_cp_and_mate_scores) (-25) 4);
      apply Z.ltb_lt; vm_compute; reflexivity.
  - apply (proj2 (proj2 parsed_cp_and_mate_scores)
             "info depth 9 score mate -3 pv h5f7"
             ["info"; "depth"; "9"] ["pv"; "h5f7"] "-3" (-3)).
    + reflexivity.
    + cbn [In]. intros [H|[H|[H|H]]]; first [discriminate | contradiction].
    + reflexivity.
Defined.

(** C3, as stated, fails for an integer too large for a float: on the line
    [info depth 1 score cp 1000...0] with 400 zeros the literals read as the
    integers [10 ^ 400] and 1, and the parser raises instead of returning an
    evaluation. *)
Lemma parsed_cp_score_out_of_float_range :
  int_of_str (String "1" (zeros 400)) = Some (10 ^ 400) /\
  int_of_str "1" = Some 1 /\
  _parse_evaluation ("info depth 1 score cp " ++ String "1" (zeros 400)) =
  Raise (OverflowError "int too large to convert to float").
Proof. repeat split; vm_compute; reflexivity. Qed.

(** The parser raises in one case only: a [cp] score whose integer does not
    convert to a float. *)
Lemma parse_raises_only_on_cp_overflow line e :
  _parse_evaluation line = Raise e ->
  exists V v,
    score_tokens (split line) = Some ("cp", V) /\
    int_of_str V = Some v /\
    float_of_int v = Raise e.
Proof.
  unfold _parse_evaluation. destruct (negb _); [discriminate|].
  destruct (score_tokens (split line)) as [[T V]|]; [|discriminate].
  unfold evaluation_of.
  destruct (String.eqb_spec T "cp") as [->|Hcp].
  - destruct (int_of_str V) as [v|] eqn:HV; [|discriminate].
    unfold int_truediv_float, bind.
    destruct (float_of_int v) as [x|e'] eqn:Hx.
    + destruct (div_by_100_finite v x Hx) as (y & -> & _). discriminate.
    + intros H. injection H as <-. now exists V, v.
  - destruct (String.eqb T "mate").
    + destruct (int_of_str V); discriminate.
    + destruct (float_of_str V); discriminate.
Qed.

(** C5: the program run on the input that breaks the claim.  On the line
    [info depth 1 score cp 1000...0] with 309 zeros the numeric parse
    succeeds, the division by 100.0 raises [OverflowError], which the parser
    does not catch, and the error leaves the read loop and the call. *)
Theorem parser_raises_on_huge_cp_score :
  _parse_evaluation ("info depth 1 score cp " ++ String "1" (zeros 309)) =
    Raise (OverflowError "int too large to convert to float") /\
  fst (_query_engine
         (Ok (engine [("info depth 1 score cp " ++ String "1" (zeros 309)) ++ newline;
                      "bestmove e2e4" ++ newline] 0 ""))
         "startpos" 12 None) =
    Raise (OverflowError "int too large to convert to float").
Proof. split; vm_compute; reflexivity. Qed.

(** ** The invariant of [Evaluation] *)

Lemma evaluation_of_depth T V d e :
  evaluation_of T V d = Ok (Some e) -> depth e = d.
Proof.
  unfold evaluation_of.
  destruct (String.eqb T "cp").
  - destruct (int_of_str V); [|discriminate]. unfold bind.
    destruct (int_truediv_float _ _); [|discriminate].
    intros H. now injection H as <-.
  - destruct (String.eqb T "mate").
    + destruct (int_of_str V); [|discriminate]. intros H. now injection H as <-.
    + destruct (float_of_str V); [|discriminate]. intros H. now injection H as <-.
Qed.

Lemma evaluation_of_finite T V d e :
  evaluation_of T V d = Ok (Some e) ->
  score_type e = T /\
  (T = "cp" \/ T = "mate" -> finite_number (score_value e) = true).
Proof.
  unfold evaluation_of.
  destruct (String.eqb_spec T "cp") as [->|Hcp].
  - destruct (int_of_str V) as [v|]; [|discriminate]. unfold bind.
    destruct (int_truediv_float v float_100) as [x|] eqn:Hx; [|discriminate].
    intros H. injection H as <-. split; [reflexivity|]. intros _.
    cbn [score_value finite_number]. exact (cp_value_finite v x Hx).
  - destruct (String.eqb_spec T "mate") as [->|Hmate].
    + destruct (int_of_str V); [|discriminate]. intros H. injection H as <-.
      split; reflexivity.
    + destruct (float_of_str V); [|discriminate]. intros H. injection H as <-.
      split; [reflexivity|]. intros [?|?]; contradiction.
Qed.

Lemma depth_of_tokens_cases tokens :
  (~ In "depth" tokens -> depth_of_tokens tokens = 0) /\
  (forall front,
     tokens = (front ++ ["depth"])%list -> ~ In "depth" front ->
     depth_of_tokens tokens = 0) /\
  (forall front tok back,
     tokens = (front ++ "depth" :: tok :: back)%list -> ~ In "depth" front ->
     depth_of_tokens tokens = match int_of_str tok with
                              | Some d => d
                              | None => 0
                              end).
Proof.
  unfold depth_of_tokens. repeat split.
  - intros Hnot. now rewrite contains_false.
  - intros front -> Hnot.
    destruct (contains "depth" _); [|reflexivity].
    rewrite index_first by exact Hnot.
    replace (List.length front + 1)%nat with (List.length front + 1 + 0)%nat by lia.
    unfold item. rewrite nth_error_app2 by lia.
    replace (List.length front + 1 + 0 - List.length front)%nat with 1%nat by lia.
    reflexivity.
  - intros front tok back -> Hnot.
    assert (Hc : contains "depth" (front ++ "depth" :: tok :: back) = true)
      by (apply contains_In, in_or_app; right; now left).
    rewrite Hc, index_first by exact Hnot. rewrite item_after.
    unfold item. cbn [nth_error]. reflexivity.
Qed.

(** C9 (amended).  Every evaluation the parser produces has as depth the
    integer read from the token after the first [depth] token, or 0: it is 0
    when the line has no [depth] token, when [depth] is its last token, and
    when the token after the first [depth] is not an integer literal, and
    the value of that literal otherwise; so that its depth is negative only
    when that token is a negative integer literal.  Its score is a finite
    number when the score type is [cp] or [mate]; and the fallback
    evaluation has the requested depth, which is non-negative when the
    request's is, and the finite score 0.0. *)
Theorem evaluation_invariant :
  (forall line e,
     _parse_evaluation line = Ok (Some e) ->
     (~ In "depth" (split line) -> depth e = 0) /\
     (forall front,
        split line = (front ++ ["depth"])%list -> ~ In "depth" front ->
        depth e = 0) /\
     (forall front tok back,
        split line = (front ++ "depth" :: tok :: back)%list ->
        ~ In "depth" front ->
        depth e = match int_of_str tok with
                  | Some d => d
                  | None => 0
                  end) /\
     (depth e < 0 ->
      exists i tok,
        index "depth" (split line) = Some i /\
        item (split line) (i + 1) = Some tok /\
        int_of_str tok = Some (depth e)) /\
     (score_type e = "cp" \/ score_type e = "mate" ->
      finite_number (score_value e) = true)) /\
  (forall requested,
     depth (fallback_evaluation requested) = requested /\
     (0 <= requested -> 0 <= depth (fallback_evaluation requested)) /\
     finite_number (score_value (fallback_evaluation requested)) = true).
Proof.
  split; [|intros; repeat split; auto].
  intros line e. unfold _parse_evaluation.
  destruct (negb _); [discriminate|].
  destruct (score_tokens (split line)) as [[T V]|]; [|discriminate].
  intros H.
  pose proof (evaluation_of_depth _ _ _ _ H) as Hd. rewrite Hd.
  destruct (depth_of_tokens_cases (split line)) as (H0 & Hlast & Hnext).
  split; [exact H0|]. split; [exact Hlast|]. split; [exact Hnext|]. split.
  - unfold depth_of_tokens.
    destruct (contains "depth" (split line)); [|lia].
    destruct (index "depth" (split line)) as [i|]; [|lia].
    destruct (item (split line) (i + 1)) as [tok|] eqn:Htok; [|lia].
    destruct (int_of_str tok) as [n|] eqn:Hn; [|lia].
    intros _. now exists i, tok.
  - apply evaluation_of_finite in H. destruct H as [-> H]. exact H.
Qed.

Lemma evaluation_invariant_witness :
  4 = match int_of_str "4" with Some d => d | None => 0 end /\
  finite_number
    (score_value {| score_type := "cp";
                    score_value := Float (S754_finite false 4503599627370496 (-54));
                    depth := 4 |}) = true /\
  (exists i tok,
     index "depth" (split "info depth -3 score mate 2") = Some i /\
     item (split "info depth -3 score mate 2") (i + 1) = Some tok /\
     int_of_str tok = Some (-3)).
Proof.
  pose proof (proj1 evaluation_invariant "info depth 4 score cp 25"
                {| score_type := "cp";
                   score_value := Float (S754_finite false 4503599627370496 (-54));
                   depth := 4 |} ltac:(vm_compute; reflexivity))
    as (_ & _ & Hnext & _ & Hfinite).
  pose proof (proj1 evaluation_invariant "info depth -3 score mate 2"
                {| score_type := "mate"; score_value := Int 2; depth := -3 |}
                ltac:(vm_compute; reflexivity))
    as (_ & _ & _ & Hneg & _).
  split; [|split].
  - apply (Hnext ["info"] "4" ["score"; "cp"; "25"]); [reflexivity|].
    cbn [In]. intros [H|H]; first [discriminate | contradiction].
  - apply Hfinite. left. reflexivity.
  - apply Hneg. reflexivity.
Defined.

(** C9, as stated, fails in each of its parts: a negative depth literal gives
    a negative depth, a score of another kind may be infinite, and the
    fallback carries a negative requested depth. *)
Lemma evaluation_invariant_broken :
  _parse_evaluation "info depth -3 score cp 40" =
    Ok (Some {| score_type := "cp"; score_value := Float float_0_4; depth := -3 |}) /\
  _parse_evaluation "info depth 3 score wdl inf" =
    Ok (Some {| score_type := "wdl"; score_value := Float (S754_infinity false);
                depth := 3 |}) /\
  fst (_query_engine (Ok (engine ["bestmove e2e4" ++ newline] 0 ""))
         "startpos" (-1) None) =
    Ok {| bestmove := "e2e4"; ponder := None;
          evaluation := {| score_type := "cp"; score_value := Float float_0;
                           depth := -1 |} |}.
Proof. repeat split; vm_compute; reflexivity. Qed.

Lemma readiness_probe_witness :
  is_service_ready (Ok (" True" ++ newline)) = Ok true.
Proof.
  destruct (proj2 (proj2 readiness_probe) (" True" ++ newline))
    as (ready & Heq & Hiff).
  rewrite Heq. f_equal. apply Hiff. vm_compute. repeat split.
Defined.

(** * Further properties of the module *)

(** ** What the read loop looks at *)

Lemma loop_body_passed_over st l :
  passed_over l = true -> loop_body st l = Ok (st, Continue).
Proof.
  unfold passed_over, loop_body. intros H.
  destruct (String.eqb (strip l) ""); [reflexivity|]. cbn [orb] in H.
  apply andb_true_iff in H. destruct H as [Hi Hb].
  apply negb_true_iff in Hi, Hb. now rewrite Hi, Hb.
Qed.

Lemma read_loop_through_bestmove : forall pre st0 l rest,
  Forall (fun x => is_bestmove_line x = false) pre ->
  is_bestmove_line l = true ->
  read_loop (pre ++ l :: rest) st0 =
  match read_loop pre st0 with
  | Ok (st1, _) => Ok (take_bestmove st1 l, rest)
  | Raise e => Raise e
  end.
Proof.
  induction pre as [|x pre IH]; intros st0 l rest Hall Hl; cbn [read_loop app].
  - now rewrite loop_body_bestmove.
  - inversion Hall as [|? ? Hx Hpre]; subst. unfold bind.
    destruct (loop_body st0 x) as [[st' c]|e] eqn:Hbody; [|reflexivity].
    destruct (loop_body_not_bestmove _ _ _ _ Hx Hbody) as (-> & _ & _).
    now apply IH.
Qed.

Lemma stdin_write_ext p p' text w :
  stdin_budget p = stdin_budget p' -> stdin_write p text w = stdin_write p' text w.
Proof. intros H. unfold stdin_write, stdin_open. now rewrite H. Qed.

Lemma stdin_flush_ext p p' w :
  stdin_budget p = stdin_budget p' -> stdin_flush p w = stdin_flush p' w.
Proof. intros H. unfold stdin_flush, stdin_open. now rewrite H. Qed.

Lemma write_commands_ext p p' commands : forall w,
  stdin_budget p = stdin_budget p' ->
  write_commands p commands w = write_commands p' commands w.
Proof.
  induction commands as [|c cs IH]; intros w H; cbn [write_commands]; [reflexivity|].
  unfold mbind. rewrite (stdin_write_ext p p') by exact H.
  destruct (stdin_write p' _ w) as [[[]|e] w']; [now apply IH | reflexivity].
Qed.

(** The session sees of the output only the state the loop ends in. *)
Lemma run_session_ext p lines lines' fen depth moves w :
  loop_state_after lines loop_start = loop_state_after lines' loop_start ->
  run_session (with_output p lines) fen depth moves w =
  run_session (with_output p lines') fen depth moves w.
Proof.
  intros Hloop. unfold run_session. cbn [with_output stdin_present stdout_present].
  destruct (negb (stdin_present p) || negb (stdout_present p)); [reflexivity|].
  unfold mbind at 1. unfold mbind at 2. unfold finally, mbind.
  unfold send_script, mbind.
  rewrite (write_commands_ext (with_output p lines) (with_output p lines'))
    by reflexivity.
  destruct (write_commands (with_output p lines') _ w) as [[[]|e] w1];
    [|reflexivity].
  rewrite (stdin_flush_ext (with_output p lines) (with_output p lines'))
    by reflexivity.
  destruct (stdin_flush (with_output p lines') w1) as [[[]|e] w2];
    [|reflexivity].
  unfold converse, mbind, lift. cbn [with_output stdout_lines].
  unfold loop_state_after in Hloop.
  destruct (read_loop lines loop_start) as [[st r]|e];
    destruct (read_loop lines' loop_start) as [[st' r']|e'];
    try discriminate; injection Hloop as <-; reflexivity.
Qed.

(** X1.  Output after the terminal line is never read: the loop stops on the
    first line beginning with [bestmove] and hands back what follows
    untouched, and [_query_engine] returns the same result, with the same
    effects on the process, whatever follows that line. *)
Theorem output_after_bestmove_is_not_read :
  forall p pre l rest rest' fen depth moves,
    Forall (fun x => is_bestmove_line x = false) pre ->
    is_bestmove_line l = true ->
    (forall st0 st unread,
       read_loop (pre ++ l :: rest) st0 = Ok (st, unread) -> unread = rest) /\
    loop_state_after (pre ++ l :: rest) loop_start =
      loop_state_after (pre ++ l :: rest') loop_start /\
    _query_engine (Ok (with_output p (pre ++ l :: rest))) fen depth moves =
      _query_engine (Ok (with_output p (pre ++ l :: rest'))) fen depth moves.
Proof.
  intros p pre l rest rest' fen depth moves Hpre Hl.
  assert (Hsame : loop_state_after (pre ++ l :: rest) loop_start =
                  loop_state_after (pre ++ l :: rest') loop_start).
  { unfold loop_state_after.
    rewrite !read_loop_through_bestmove by assumption.
    destruct (read_loop pre loop_start) as [[st1 r]|e]; reflexivity. }
  split; [|split; [exact Hsame|]].
  - intros st0 st unread H.
    rewrite read_loop_through_bestmove in H by assumption.
    destruct (read_loop pre st0) as [[st1 r]|e]; [|discriminate].
    now injection H as _ <-.
  - cbn [_query_engine]. now apply run_session_ext.
Qed.

Lemma output_after_bestmove_is_not_read_witness :
  _query_engine
    (Ok (with_output (engine [] 0 "")
           (["info depth 2 score cp 13" ++ newline] ++
            ("bestmove e2e4" ++ newline) ::
            ["info depth 9 score cp " ++ String "1" (zeros 309)])))
    "startpos" 4 None =
  _query_engine
    (Ok (with_output (engine [] 0 "")
           (["info depth 2 score cp 13" ++ newline] ++
            ("bestmove e2e4" ++ newline) :: [])))
    "startpos" 4 None.
Proof.
  apply (output_after_bestmove_is_not_read (engine [] 0 "")
           ["info depth 2 score cp 13" ++ newline] ("bestmove e2e4" ++ newline)
           ["info depth 9 score cp " ++ String "1" (zeros 309)] []
           "startpos" 4 None).
  - repeat constructor.
  - reflexivity.
Defined.

Lemma loop_state_after_passed_over : forall lines st0,
  loop_state_after (filter (fun l => negb (passed_over l)) lines) st0 =
  loop_state_after lines st0.
Proof.
  unfold loop_state_after.
  induction lines as [|l ls IH]; intros st0; cbn [filter]; [reflexivity|].
  destruct (passed_over l) eqn:Hp; cbn [negb read_loop].
  - rewrite (loop_body_passed_over st0 l Hp). unfold bind. apply IH.
  - unfold bind. destruct (loop_body st0 l) as [[st1 []]|e]; [apply IH | reflexivity ..].
Qed.

(** X2.  Blank lines and lines that begin with neither [info] nor
    [bestmove] change nothing: with them removed from the output the loop
    ends in the same state, or raises the same exception, and
    [_query_engine] gives the same result with the same effects. *)
Theorem passed_over_lines_do_not_matter :
  forall p lines fen depth moves,
    loop_state_after (filter (fun l => negb (passed_over l)) lines) loop_start =
      loop_state_after lines loop_start /\
    _query_engine
      (Ok (with_output p (filter (fun l => negb (passed_over l)) lines)))
      fen depth moves =
    _query_engine (Ok (with_output p lines)) fen depth moves.
Proof.
  intros p lines fen depth moves.
  split; [apply loop_state_after_passed_over|].
  cbn [_query_engine]. apply run_session_ext, loop_state_after_passed_over.
Qed.

(** ** Tokens *)

Lemma split_tokens : forall s w, In w (split s) -> is_token w = true.
Proof.
  induction s as [|c r IH]; intros w Hin; cbn [split] in Hin; [contradiction|].
  destruct (isspace c) eqn:Hc; [now apply IH|].
  assert (Hone : is_token (String c "") = true)
    by (cbn [is_token no_space]; now rewrite Hc).
  destruct r as [|c' r']; [destruct Hin as [<-|[]]; exact Hone|].
  destruct (isspace c') eqn:Hc'.
  - destruct Hin as [<-|Hin]; [exact Hone | now apply IH].
  - destruct (split (String c' r')) as [|w0 ws] eqn:Hs.
    + destruct Hin as [<-|[]]; exact Hone.
    + destruct Hin as [<-|Hin].
      * assert (Hw0 : is_token w0 = true) by (apply IH; now left).
        cbn [is_token no_space]. rewrite Hc. cbn [negb andb].
        destruct w0; [discriminate | exact Hw0].
      * apply IH. now right.
Qed.

Lemma split_space_app sp : forall s t,
  isspace sp = true -> split (s ++ String sp t) = (split s ++ split t)%list.
Proof.
  intros s t Hsp. induction s as [|c r IH]; cbn [String.append].
  - cbn [split app]. now rewrite Hsp.
  - cbn [split]. destruct (isspace c) eqn:Hc; [exact IH|].
    destruct r as [|c' r']; cbn [String.append].
    + change (split (String sp t) = split t) in IH.
      rewrite Hsp, IH. reflexivity.
    + cbn [String.append] in IH. destruct (isspace c') eqn:Hc'.
      * rewrite IH. reflexivity.
      * rewrite IH.
        destruct (split_head c' r' Hc') as (w & ws & ->). reflexivity.
Qed.

Lemma split_one_token w : is_token w = true -> split w = [w].
Proof.
  induction w as [|c r IH]; [discriminate|]. cbn [is_token no_space split].
  intros H. apply andb_true_iff in H. destruct H as [Hc Hr].
  apply negb_true_iff in Hc. rewrite Hc.
  destruct r as [|c' r']; [reflexivity|].
  assert (Htok : is_token (String c' r') = true) by exact Hr.
  cbn [no_space] in Hr. apply andb_true_iff in Hr. destruct Hr as [Hc' _].
  apply negb_true_iff in Hc'. rewrite Hc'. now rewrite (IH Htok).
Qed.

Lemma split_join : forall ws,
  Forall (fun w => is_token w = true) ws -> split (join " " ws) = ws.
Proof.
  induction ws as [|w ws IH]; intros Hall; [reflexivity|].
  inversion Hall as [|? ? Hw Hws]; subst. cbn [join].
  destruct ws as [|w' ws']; [now apply split_one_token|].
  change (w ++ " " ++ join " " (w' :: ws'))
    with (w ++ String " " (join " " (w' :: ws'))).
  rewrite split_space_app by reflexivity.
  now rewrite split_one_token, IH.
Qed.

(** ** The terminal line *)

(** X3.  On a line beginning with [bestmove] the loop stops and keeps the
    tracked evaluation; the move is the second token of the line; the ponder
    move is the token that follows the first [ponder] token, and none is
    recorded when the line has no [ponder] token or ends with it. *)
Theorem bestmove_line_extraction :
  forall st l,
    is_bestmove_line l = true ->
    exists st',
      loop_body st l = Ok (st', Break) /\
      ls_evaluation st' = ls_evaluation st /\
      best_depth st' = best_depth st /\
      (forall first move more,
         split (strip l) = first :: move :: more -> ls_bestmove st' = Some move) /\
      (~ In "ponder" (split (strip l)) -> ls_ponder st' = ls_ponder st) /\
      (forall front q back,
         split (strip l) = (front ++ "ponder" :: q :: back)%list ->
         ~ In "ponder" front -> ls_ponder st' = Some q) /\
      (forall front,
         split (strip l) = (front ++ ["ponder"])%list ->
         ~ In "ponder" front -> ls_ponder st' = ls_ponder st).
Proof.
  intros st l Hl. exists (take_bestmove st l).
  split; [now apply loop_body_bestmove|].
  unfold take_bestmove. cbn [ls_evaluation best_depth ls_bestmove ls_ponder].
  split; [reflexivity|]. split; [reflexivity|]. repeat split.
  - intros first move more ->. reflexivity.
  - intros Hnot. now rewrite contains_false.
  - intros front q back -> Hnot.
    assert (Hc : contains "ponder" (front ++ "ponder" :: q :: back) = true)
      by (apply contains_In, in_or_app; right; now left).
    rewrite Hc, index_first by exact Hnot.
    assert (Hlt : (List.length front + 1 <? List.length (front ++ "ponder" :: q :: back))%nat
                  = true).
    { apply Nat.ltb_lt. rewrite length_app. cbn [List.length]. lia. }
    rewrite Hlt, item_after. reflexivity.
  - intros front -> Hnot.
    assert (Hc : contains "ponder" (front ++ ["ponder"]) = true)
      by (apply contains_In, in_or_app; right; now left).
    rewrite Hc, index_first by exact Hnot.
    assert (Hlt : (List.length front + 1 <? List.length (front ++ ["ponder"]))%nat
                  = false).
    { apply Nat.ltb_ge. rewrite length_app. cbn [List.length]. lia. }
    now rewrite Hlt.
Qed.

Lemma bestmove_line_extraction_witness :
  exists st',
    loop_body loop_start ("bestmove e2e4 ponder e7e5" ++ newline) = Ok (st', Break) /\
    ls_bestmove st' = Some "e2e4" /\ ls_ponder st' = Some "e7e5".
Proof.
  destruct (bestmove_line_extraction loop_start
              ("bestmove e2e4 ponder e7e5" ++ newline) eq_refl)
    as (st' & Hbody & _ & _ & Hmove & _ & Hponder & _).
  exists st'. split; [exact Hbody|]. split.
  - apply (Hmove "bestmove" "e2e4" ["ponder"; "e7e5"]). reflexivity.
  - apply (Hponder ["bestmove"; "e2e4"] "e7e5" []); [reflexivity|].
    cbn [In]. intros [H|[H|H]]; first [discriminate | contradiction].
Defined.

(** ** Anatomy of a session *)

Lemma stdin_write_outcome p text w :
  exists r w',
    stdin_write p text w = (r, w') /\
    returncode w' = returncode w /\ killed w' = killed w /\
    (r = Ok tt \/ r = Raise BrokenPipeError).
Proof.
  unfold stdin_write. destruct (stdin_open p w); eexists; eexists;
    (split; [reflexivity|]); cbn; auto.
Qed.

Lemma stdin_flush_outcome p w :
  exists r w',
    stdin_flush p w = (r, w') /\
    returncode w' = returncode w /\ killed w' = killed w /\
    (r = Ok tt \/ r = Raise BrokenPipeError).
Proof.
  unfold stdin_flush. destruct (stdin_open p w); eexists; eexists;
    (split; [reflexivity|]); cbn; auto.
Qed.

Lemma write_commands_outcome p commands : forall w,
  exists r w',
    write_commands p commands w = (r, w') /\
    returncode w' = returncode w /\ killed w' = killed w /\
    (r = Ok tt \/ r = Raise BrokenPipeError).
Proof.
  induction commands as [|c cs IH]; intros w; cbn [write_commands].
  - exists (Ok tt), w. unfold ret. auto.
  - unfold mbind.
    destruct (stdin_write_outcome p (c ++ String "010" "") w)
      as (r & w1 & -> & Hrc & Hk & [->| ->]).
    + destruct (IH w1) as (r' & w2 & -> & Hrc' & Hk' & Hr').
      exists r', w2. repeat split; congruence.
    + exists (Raise BrokenPipeError), w1. auto.
Qed.

Lemma send_script_outcome p commands w :
  exists r w',
    send_script p commands w = (r, w') /\
    returncode w' = returncode w /\ killed w' = killed w /\
    (r = Ok tt \/ r = Raise BrokenPipeError).
Proof.
  unfold send_script, mbind.
  destruct (write_commands_outcome p commands w)
    as (r & w1 & -> & Hrc & Hk & [->| ->]).
  - destruct (stdin_flush_outcome p w1) as (r' & w2 & -> & Hrc' & Hk' & Hr').
    exists r', w2. repeat split; congruence.
  - exists (Raise BrokenPipeError), w1. auto.
Qed.

(** The loop lets one exception through, the parser's. *)
Lemma read_loop_raises_only_overflow : forall lines st0 e,
  read_loop lines st0 = Raise e ->
  e = OverflowError "int too large to convert to float".
Proof.
  induction lines as [|l ls IH]; intros st0 e H; cbn [read_loop] in H;
    [discriminate|].
  unfold bind in H.
  destruct (loop_body st0 l) as [[st1 c]|e'] eqn:Hbody.
  - destruct c; [now apply (IH st1) | discriminate].
  - injection H as <-. unfold loop_body in Hbody.
    destruct (String.eqb (strip l) ""); [discriminate|].
    destruct (startswith (strip l) "info").
    + unfold bind in Hbody.
      destruct (_parse_evaluation (strip l)) as [[ev|]|e''] eqn:Hparse.
      * destruct (best_depth st0 <=? depth ev); discriminate.
      * discriminate.
      * injection Hbody as <-.
        destruct (parse_raises_only_on_cp_overflow _ _ Hparse) as (V & v & _ & _ & Hf).
        unfold float_of_int in Hf.
        destruct (binary_normalize prec emax v 0 false); try discriminate.
        now injection Hf as <-.
    + destruct (startswith (strip l) "bestmove"); discriminate.
Qed.

(** What the [try] block of lines 124-158 leaves behind. *)
Lemma converse_outcome p w :
  exists r w',
    converse p w = (r, w') /\ killed w' = killed w /\
    match r with
    | Ok (st, err) =>
        exists rc rest,
          returncode w' = Some rc /\ exit p = Some (rc, err) /\
          read_loop (stdout_lines p) loop_start = Ok (st, rest)
    | Raise e =>
        returncode w' = returncode w /\
        (e = BrokenPipeError \/
         e = OverflowError "int too large to convert to float" \/
         e = TimeoutExpired /\ exit p = None)
    end.
Proof.
  unfold converse, mbind, lift.
  destruct (read_loop (stdout_lines p) loop_start) as [[st rest]|e] eqn:Hloop.
  - destruct (stdin_write_outcome p ("quit" ++ String "010" "") w)
      as (r & w1 & -> & Hrc & Hk & [->| ->]).
    + destruct (stdin_flush_outcome p w1) as (r' & w2 & -> & Hrc' & Hk' & [->| ->]).
      * unfold communicate. destruct (exit p) as [[rc err]|] eqn:Hexit.
        -- eexists; eexists. split; [reflexivity|]. cbn [killed returncode].
           split; [congruence|]. now exists rc, rest.
        -- eexists; eexists. split; [reflexivity|].
           split; [congruence|]. split; [congruence|]. auto.
      * eexists; eexists. split; [reflexivity|].
        split; [congruence|]. split; [congruence|]. auto.
    + eexists; eexists. split; [reflexivity|]. auto.
  - eexists; eexists. split; [reflexivity|]. split; [reflexivity|].
    split; [reflexivity|]. right. left.
    exact (read_loop_raises_only_overflow _ _ _ Hloop).
Qed.

Lemma try_block_outcome p commands :
  exists r w',
    finally (mbind (send_script p commands) (fun _ => converse p))
            (kill_if_running p) io_start = (r, w') /\
    match r with
    | Ok (st, err) =>
        exists rc rest,
          returncode w' = Some rc /\ killed w' = false /\
          exit p = Some (rc, err) /\
          read_loop (stdout_lines p) loop_start = Ok (st, rest)
    | Raise e =>
        returncode w' = poll_on_error p /\ killed w' = running_on_error p /\
        (e = BrokenPipeError \/
         e = OverflowError "int too large to convert to float" \/
         e = TimeoutExpired /\ exit p = None)
    end.
Proof.
  unfold finally, mbind.
  destruct (send_script_outcome p commands io_start)
    as (r & w1 & -> & Hrc & Hk & [->| ->]); cbn [returncode killed io_start] in *.
  - destruct (converse_outcome p w1) as (r' & w2 & -> & Hk2 & Hr').
    destruct r' as [[st err]|e].
    + destruct Hr' as (rc & rest & Hrc2 & Hexit & Hloop).
      unfold kill_if_running. rewrite Hrc2.
      eexists; eexists. split; [reflexivity|].
      exists rc, rest. repeat split; congruence.
    + destruct Hr' as (Hrc2 & He).
      unfold kill_if_running, running_on_error. rewrite Hrc2, Hrc.
      destruct (poll_on_error p); eexists; eexists;
        (split; [reflexivity|]); cbn [returncode killed];
        repeat split; congruence.
  - unfold kill_if_running, running_on_error. rewrite Hrc.
    destruct (poll_on_error p); eexists; eexists;
      (split; [reflexivity|]); cbn [returncode killed];
      repeat split; auto; congruence.
Qed.

Lemma query_engine_anatomy p fen depth moves :
  stdin_present p = true -> stdout_present p = true ->
  _query_engine (Ok p) fen depth moves =
  match finally (mbind (send_script p (commands_of fen depth moves))
                       (fun _ => converse p))
                (kill_if_running p) io_start with
  | (Ok (st, err), w) => conclude depth st err w
  | (Raise e, w) => (Raise e, w)
  end.
Proof.
  intros Hin Hout. cbn [_query_engine]. unfold run_session.
  rewrite Hin, Hout. cbn [negb orb]. unfold mbind at 1.
  destruct (finally _ _ io_start) as [[[st err]|e] w]; reflexivity.
Qed.

Lemma conclude_keeps_io depth st err w : snd (conclude depth st err w) = w.
Proof.
  unfold conclude. destruct (exit_failed (returncode w)); [reflexivity|].
  destruct (ls_bestmove st); reflexivity.
Qed.

(** X4.  Cleanup of lines 159-161: after a call on a started process with
    both pipes, the process has been killed exactly when the wait for its
    exit did not complete and it was still running; once [communicate] has
    returned a return code it is never killed. *)
Theorem process_killed_iff_not_reaped :
  forall p fen depth moves,
    stdin_present p = true -> stdout_present p = true ->
    killed (snd (_query_engine (Ok p) fen depth moves)) =
    match returncode (snd (_query_engine (Ok p) fen depth moves)) with
    | Some _ => false
    | None => running_on_error p
    end.
Proof.
  intros p fen depth moves Hin Hout.
  rewrite (query_engine_anatomy p fen depth moves Hin Hout).
  destruct (try_block_outcome p (commands_of fen depth moves)) as (r & w & -> & Hr).
  destruct r as [[st err]|e].
  - destruct Hr as (rc & rest & Hrc & Hk & _). rewrite conclude_keeps_io.
    now rewrite Hrc, Hk.
  - destruct Hr as (Hrc & Hk & _). cbn [snd]. rewrite Hrc, Hk.
    unfold running_on_error. now destruct (poll_on_error p).
Qed.

Lemma process_killed_iff_not_reaped_witness :
  killed (snd (_query_engine
                 (Ok {| stdin_present := true; stdout_present := true;
                        stdin_budget := None;
                        stdout_lines := ["bestmove e2e4" ++ newline];
                        exit := None; poll_on_error := None |})
                 "startpos" 12 None)) = true.
Proof.
  rewrite (process_killed_iff_not_reaped
             {| stdin_present := true; stdout_present := true;
                stdin_budget := None;
                stdout_lines := ["bestmove e2e4" ++ newline];
                exit := None; poll_on_error := None |}
             "startpos" 12 None eq_refl eq_refl).
  reflexivity.
Defined.

(** X5.  What a [RuntimeError] of a call on a started process tells the
    caller: the stream error means that a pipe was missing; the process
    failure means that [communicate] returned a return code other than 0,
    and its text ends with the stripped standard error; the missing best
    move means that the process exited with code 0 and the loop ended
    without having recorded a move. *)
Theorem runtime_error_causes :
  forall p fen depth moves msg,
    fst (_query_engine (Ok p) fen depth moves) = Raise (RuntimeError msg) ->
    msg = "Failed to open Stockfish stdin/stdout streams" /\
      (stdin_present p = false \/ stdout_present p = false) \/
    (exists rc err,
       exit p = Some (rc, err) /\ rc <> 0 /\
       msg = "Stockfish process failed: " ++ strip err) \/
    (exists err st rest,
       exit p = Some (0, err) /\
       read_loop (stdout_lines p) loop_start = Ok (st, rest) /\
       ls_bestmove st = None /\
       msg = "Stockfish did not report a best move").
Proof.
  intros p fen depth moves msg H.
  destruct (stdin_present p) eqn:Hin; [destruct (stdout_present p) eqn:Hout|].
  - rewrite (query_engine_anatomy p fen depth moves Hin Hout) in H.
    destruct (try_block_outcome p (commands_of fen depth moves)) as (r & w & Hw & Hr).
    rewrite Hw in H. destruct r as [[st err]|e'].
    + destruct Hr as (rc & rest & Hrc & _ & Hexit & Hloop).
      unfold conclude in H. rewrite Hrc in H. cbn [exit_failed] in H.
      destruct (Z.eqb_spec rc 0) as [Hz|Hnz]; cbn [negb fst] in H.
      * rewrite Hz in Hexit.
        destruct (ls_bestmove st) eqn:Hmove; [discriminate|]. injection H as <-.
        right. right. now exists err, st, rest.
      * injection H as <-. right. left. now exists rc, err.
    + cbn [fst] in H. injection H as ->.
      destruct Hr as (_ & _ & [He|[He|[He _]]]); discriminate.
  - left. cbn [_query_engine] in H. unfold run_session in H.
    rewrite Hin, Hout in H. cbn in H. injection H as <-. auto.
  - left. cbn [_query_engine] in H. unfold run_session in H.
    rewrite Hin in H. cbn in H. injection H as <-. auto.
Qed.

Lemma runtime_error_causes_witness :
  "Stockfish process failed: crash" =
    "Failed to open Stockfish stdin/stdout streams" /\
    (stdin_present (engine ["bestmove" ++ newline] 1 "crash") = false \/
     stdout_present (engine ["bestmove" ++ newline] 1 "crash") = false) \/
  (exists rc err,
     exit (engine ["bestmove" ++ newline] 1 "crash") = Some (rc, err) /\ rc <> 0 /\
     "Stockfish process failed: crash" = "Stockfish process failed: " ++ strip err) \/
  (exists err st rest,
     exit (engine ["bestmove" ++ newline] 1 "crash") = Some (0, err) /\
     read_loop (stdout_lines (engine ["bestmove" ++ newline] 1 "crash")) loop_start =
       Ok (st, rest) /\
     ls_bestmove st = None /\
     "Stockfish process failed: crash" = "Stockfish did not report a best move").
Proof.
  apply (runtime_error_causes (engine ["bestmove" ++ newline] 1 "crash")
           "startpos" 12 None).
  vm_compute. reflexivity.
Defined.

(** ** When a call returns *)

Lemma stdin_open_accepts p w :
  stdin_open p w = true -> stdin_accepts p (S (stdin_calls w)).
Proof.
  unfold stdin_open, stdin_accepts. destruct (stdin_budget p); [|trivial].
  intros H. apply Nat.ltb_lt in H. lia.
Qed.

Lemma stdin_write_ok_inv p text w w' :
  stdin_write p text w = (Ok tt, w') ->
  stdin_accepts p (stdin_calls w') /\ stdin_calls w' = S (stdin_calls w).
Proof.
  unfold stdin_write. destruct (stdin_open p w) eqn:Hopen; [|discriminate].
  intros H. injection H as <-. cbn [stdin_calls].
  split; [now apply stdin_open_accepts | reflexivity].
Qed.

Lemma stdin_flush_ok_inv p w w' :
  stdin_flush p w = (Ok tt, w') ->
  stdin_accepts p (stdin_calls w') /\ stdin_calls w' = S (stdin_calls w).
Proof.
  unfold stdin_flush. destruct (stdin_open p w) eqn:Hopen; [|discriminate].
  intros H. injection H as <-. cbn [stdin_calls].
  split; [now apply stdin_open_accepts | reflexivity].
Qed.

Lemma write_commands_ok_inv p commands : forall w w',
  write_commands p commands w = (Ok tt, w') ->
  stdin_calls w' = (stdin_calls w + List.length commands)%nat.
Proof.
  induction commands as [|c cs IH]; intros w w' H; cbn [write_commands] in H.
  - injection H as <-. cbn [List.length]. lia.
  - unfold mbind in H.
    destruct (stdin_write p _ w) as [[[]|e] w1] eqn:Hw; [|discriminate].
    apply stdin_write_ok_inv in Hw. destruct Hw as [_ Hc].
    apply IH in H. cbn [List.length]. lia.
Qed.

(** A call that leaves the [try] block normally made all its writes. *)
Lemma try_block_ok_accepts p commands x w :
  finally (mbind (send_script p commands) (fun _ => converse p))
          (kill_if_running p) io_start = (Ok x, w) ->
  stdin_accepts p (List.length commands + 3).
Proof.
  unfold finally, mbind, send_script, mbind.
  destruct (write_commands p commands io_start) as [[[]|e] w1] eqn:Hw.
  - apply write_commands_ok_inv in Hw. cbn [io_start stdin_calls] in Hw.
    destruct (stdin_flush p w1) as [[[]|e] w2] eqn:Hf.
    + apply stdin_flush_ok_inv in Hf. destruct Hf as [_ Hc2].
      unfold converse, mbind, lift.
      destruct (read_loop (stdout_lines p) loop_start) as [[st rest]|e].
      * destruct (stdin_write p _ w2) as [[[]|e] w3] eqn:Hq.
        -- apply stdin_write_ok_inv in Hq. destruct Hq as [_ Hc3].
           destruct (stdin_flush p w3) as [[[]|e] w4] eqn:Hf2.
           ++ apply stdin_flush_ok_inv in Hf2. destruct Hf2 as [Hacc Hc4].
              intros _. eapply stdin_accepts_le; [|exact Hacc]. lia.
           ++ destruct (kill_if_running p w4) as [[[]|?] ?]; discriminate.
        -- destruct (kill_if_running p w3) as [[[]|?] ?]; discriminate.
      * destruct (kill_if_running p w2) as [[[]|?] ?]; discriminate.
    + destruct (kill_if_running p w2) as [[[]|?] ?]; discriminate.
  - destruct (kill_if_running p w1) as [[[]|?] ?]; discriminate.
Qed.

(** Every line list either has no terminal line or splits at its first. *)
Lemma first_bestmove_line : forall lines,
  Forall (fun l => is_bestmove_line l = false) lines \/
  exists pre l rest,
    lines = (pre ++ l :: rest)%list /\
    Forall (fun x => is_bestmove_line x = false) pre /\
    is_bestmove_line l = true.
Proof.
  induction lines as [|x ls IH]; [left; constructor|].
  destruct (is_bestmove_line x) eqn:Hx.
  - right. exists [], x, ls. repeat split; [constructor | exact Hx].
  - destruct IH as [Hall|(pre & l & rest & -> & Hpre & Hl)].
    + left. now constructor.
    + right. exists (x :: pre), l, rest. repeat split; [now constructor | exact Hl].
Qed.

(** The move the loop records is the second token of the first terminal
    line. *)
Lemma recorded_move_origin lines st unread move :
  read_loop lines loop_start = Ok (st, unread) ->
  ls_bestmove st = Some move ->
  exists pre l,
    lines = (pre ++ l :: unread)%list /\
    Forall (fun x => is_bestmove_line x = false) pre /\
    is_bestmove_line l = true /\
    item (split (strip l)) 1 = Some move.
Proof.
  intros Hloop Hmove.
  destruct (first_bestmove_line lines) as [Hall|(pre & l & rest & -> & Hpre & Hl)].
  - destruct (read_loop_no_bestmove _ _ _ _ Hall Hloop) as (_ & Hbm & _).
    rewrite Hbm in Hmove. discriminate.
  - rewrite read_loop_through_bestmove in Hloop by assumption.
    destruct (read_loop pre loop_start) as [[st1 r]|e] eqn:Hpreloop; [|discriminate].
    injection Hloop as <- <-.
    exists pre, l. repeat split; try assumption.
    destruct (read_loop_no_bestmove _ _ _ _ Hpre Hpreloop) as (_ & Hbm & _).
    unfold take_bestmove in Hmove. cbn [ls_bestmove] in Hmove.
    destruct (2 <=? List.length (split (strip l)))%nat; [exact Hmove|].
    rewrite Hbm in Hmove. discriminate.
Qed.

(** What a returned prediction says about the session. *)
Lemma query_engine_ok_inv p fen depth moves pr :
  fst (_query_engine (Ok p) fen depth moves) = Ok pr ->
  stdin_present p = true /\ stdout_present p = true /\
  stdin_accepts p 8 /\
  exists st rest err,
    read_loop (stdout_lines p) loop_start = Ok (st, rest) /\
    exit p = Some (0, err) /\
    ls_bestmove st = Some (bestmove pr) /\
    ponder pr = ls_ponder st /\
    evaluation pr =
      match ls_evaluation st with
      | None => fallback_evaluation depth
      | Some e => e
      end.
Proof.
  intros H.
  destruct (stdin_present p) eqn:Hin;
    [|cbn [_query_engine] in H; unfold run_session in H; rewrite Hin in H;
      discriminate].
  destruct (stdout_present p) eqn:Hout;
    [|cbn [_query_engine] in H; unfold run_session in H; rewrite Hin, Hout in H;
      discriminate].
  rewrite (query_engine_anatomy p fen depth moves Hin Hout) in H.
  pose proof (try_block_ok_accepts p (commands_of fen depth moves)) as Hacc.
  destruct (try_block_outcome p (commands_of fen depth moves)) as (r & w & Hw & Hr).
  rewrite Hw in H, Hacc. destruct r as [[st err]|e]; [|discriminate].
  specialize (Hacc (st, err) w eq_refl). rewrite commands_of_eq in Hacc.
  destruct Hr as (rc & rest & Hrc & _ & Hexit & Hloop).
  unfold conclude in H. rewrite Hrc in H. cbn [exit_failed] in H.
  destruct (Z.eqb_spec rc 0) as [Hz|Hnz]; cbn [negb fst] in H; [|discriminate].
  rewrite Hz in Hexit.
  destruct (ls_bestmove st) as [move|] eqn:Hmove; [|discriminate].
  injection H as <-. cbn [bestmove ponder evaluation].
  repeat split; [exact Hacc|].
  exists st, rest, err. repeat split; assumption.
Qed.

(** X6.  A call on a started process returns a prediction exactly when
    both pipes are there, the pipe takes all eight writes and flushes, the
    read loop ends on a line beginning with [bestmove] that has a second
    token, and the process exits with code 0 within the wait; the prediction
    then carries that second token, the ponder move the loop recorded, and
    the tracked evaluation or the fallback. *)
Theorem query_engine_returns_iff :
  forall p fen depth moves pr,
    fst (_query_engine (Ok p) fen depth moves) = Ok pr <->
    stdin_present p = true /\ stdout_present p = true /\
    stdin_accepts p 8 /\
    exists st pre l rest err,
      stdout_lines p = (pre ++ l :: rest)%list /\
      Forall (fun x => is_bestmove_line x = false) pre /\
      is_bestmove_line l = true /\
      read_loop (stdout_lines p) loop_start = Ok (st, rest) /\
      item (split (strip l)) 1 = Some (bestmove pr) /\
      exit p = Some (0, err) /\
      ponder pr = ls_ponder st /\
      evaluation pr =
        match ls_evaluation st with
        | None => fallback_evaluation depth
        | Some e => e
        end.
Proof.
  intros p fen depth moves pr. split.
  - intros H.
    destruct (query_engine_ok_inv p fen depth moves pr H)
      as (Hin & Hout & Hacc & st & rest & err & Hloop & Hexit & Hmove & Hpo & Hev).
    destruct (recorded_move_origin _ _ _ _ Hloop Hmove)
      as (pre & l & Hl & Hpre & Hb & Hitem).
    repeat split; try assumption.
    exists st, pre, l, rest, err. repeat split; assumption.
  - intros (Hin & Hout & Hacc & st & pre & l & rest & err &
            Hlines & Hpre & Hl & Hloop & Hitem & Hexit & Hponder & Heval).
    rewrite (query_engine_exit_zero p fen depth moves st rest err) by assumption.
    assert (Hmove : ls_bestmove st = Some (bestmove pr)).
    { rewrite Hlines, read_loop_through_bestmove in Hloop by assumption.
      destruct (read_loop pre loop_start) as [[st1 r]|e]; [|discriminate].
      injection Hloop as <-. unfold take_bestmove. cbn [ls_bestmove].
      assert (Hlen : (2 <=? List.length (split (strip l)))%nat = true).
      { apply Nat.leb_le. unfold item in Hitem.
        assert (1 < List.length (split (strip l)))%nat
          by (apply nth_error_Some; congruence). lia. }
      now rewrite Hlen. }
    rewrite Hmove. destruct pr as [b po ev].
    cbn [bestmove ponder evaluation] in *. rewrite Hponder, Heval. reflexivity.
Qed.

Lemma query_engine_returns_iff_witness :
  fst (_query_engine
         (Ok (engine ["info depth 3 score mate 2" ++ newline;
                      "bestmove h5f7 ponder e8f7" ++ newline;
                      "info string late"] 0 ""))
         "startpos" 12 None) =
  Ok {| bestmove := "h5f7"; ponder := Some "e8f7";
        evaluation := {| score_type := "mate"; score_value := Int 2; depth := 3 |} |}.
Proof.
  apply (proj2 (query_engine_returns_iff _ "startpos" 12 None _)).
  split; [reflexivity|]. split; [reflexivity|]. split; [exact I|].
  exists {| ls_bestmove := Some "h5f7"; ls_ponder := Some "e8f7";
            ls_evaluation := Some {| score_type := "mate"; score_value := Int 2;
                                     depth := 3 |};
            best_depth := 3 |},
    ["info depth 3 score mate 2" ++ newline],
    ("bestmove h5f7 ponder e8f7" ++ newline), ["info string late"], "".
  repeat split; repeat constructor.
Defined.


(** ** What a prediction is made of *)

Lemma item_is_token s i w : item (split s) i = Some w -> is_token w = true.
Proof.
  unfold item. intros H. apply nth_error_In in H. now apply (split_tokens s).
Qed.

Lemma loop_body_moves_are_tokens st l st' c :
  loop_body st l = Ok (st', c) ->
  (forall m, ls_bestmove st = Some m -> is_token m = true) ->
  (forall q, ls_ponder st = Some q -> is_token q = true) ->
  (forall m, ls_bestmove st' = Some m -> is_token m = true) /\
  (forall q, ls_ponder st' = Some q -> is_token q = true).
Proof.
  intros Hbody Hm Hq.
  destruct (is_bestmove_line l) eqn:Hl.
  - rewrite loop_body_bestmove in Hbody by exact Hl.
    injection Hbody as <- <-. unfold take_bestmove.
    cbn [ls_bestmove ls_ponder]. split.
    + intros m. destruct (2 <=? _)%nat; [apply item_is_token | apply Hm].
    + intros q. destruct (contains "ponder" _); [|apply Hq].
      destruct (index "ponder" _) as [i|]; [|apply Hq].
      destruct (i + 1 <? _)%nat; [apply item_is_token | apply Hq].
  - destruct (loop_body_not_bestmove _ _ _ _ Hl Hbody) as (_ & -> & ->).
    now split.
Qed.

Lemma read_loop_moves_are_tokens : forall lines st0 st rest,
  read_loop lines st0 = Ok (st, rest) ->
  (forall m, ls_bestmove st0 = Some m -> is_token m = true) ->
  (forall q, ls_ponder st0 = Some q -> is_token q = true) ->
  (forall m, ls_bestmove st = Some m -> is_token m = true) /\
  (forall q, ls_ponder st = Some q -> is_token q = true).
Proof.
  induction lines as [|l ls IH]; intros st0 st rest H Hm Hq; cbn [read_loop] in H.
  - injection H as <- <-. now split.
  - unfold bind in H.
    destruct (loop_body st0 l) as [[st1 c]|e] eqn:Hbody; [|discriminate].
    destruct (loop_body_moves_are_tokens _ _ _ _ Hbody Hm Hq) as [Hm1 Hq1].
    destruct c; [now apply (IH st1 st rest) | injection H as <- <-; now split].
Qed.

(** X7.  The moves of a returned prediction are tokens of the engine's
    output: the best move is a non-empty string without white space, and so
    is the ponder move when there is one. *)
Theorem prediction_moves_are_tokens :
  forall p fen depth moves pr,
    fst (_query_engine (Ok p) fen depth moves) = Ok pr ->
    is_token (bestmove pr) = true /\
    (forall q, ponder pr = Some q -> is_token q = true).
Proof.
  intros p fen depth moves pr H.
  destruct (query_engine_ok_inv p fen depth moves pr H)
    as (_ & _ & _ & st & rest & err & Hloop & _ & Hmove & Hpo & _).
  destruct (read_loop_moves_are_tokens _ _ _ _ Hloop) as [Hm Hq];
    try (cbn; discriminate).
  split; [now apply Hm|]. intros q Hq'. apply Hq. congruence.
Qed.

Lemma prediction_moves_are_tokens_witness :
  is_token "e2e4" = true /\ (forall q, Some "e7e5" = Some q -> is_token q = true).
Proof.
  apply (prediction_moves_are_tokens
           (engine ["  bestmove   e2e4    ponder  e7e5  " ++ newline] 0 "")
           "startpos" 12 None
           {| bestmove := "e2e4"; ponder := Some "e7e5";
              evaluation := fallback_evaluation 12 |}).
  vm_compute. reflexivity.
Defined.

Lemma deepest_latest_In es e : deepest_latest es e -> In e es.
Proof.
  intros (before & after & -> & _). apply in_or_app. right. now left.
Qed.

Lemma parsed_evaluation_origin lines e :
  In e (parsed_evaluations lines) ->
  exists l, In l lines /\ info_evaluation l = Some e.
Proof.
  unfold parsed_evaluations. intros H. apply in_flat_map in H.
  destruct H as (l & Hl & He). exists l. split; [exact Hl|].
  unfold line_evaluations in He.
  destruct (info_evaluation l) as [e'|]; [|contradiction].
  destruct He as [->|[]]. reflexivity.
Qed.

(** X8.  The evaluation of a returned prediction is never made up: it is
    the fallback for the requested depth, or the evaluation parsed from one
    of the [info] lines the loop consumed, and then its depth is at least
    -1. *)
Theorem prediction_evaluation_origin :
  forall p fen requested moves pr,
    fst (_query_engine (Ok p) fen requested moves) = Ok pr ->
    evaluation pr = fallback_evaluation requested \/
    (exists l,
       In l (stdout_lines p) /\
       info_evaluation l = Some (evaluation pr)) /\
    -1 <= depth (evaluation pr).
Proof.
  intros p fen requested moves pr H.
  destruct (query_engine_ok_inv p fen requested moves pr H)
    as (_ & _ & _ & st & rest & err & Hloop & _ & _ & _ & Hev).
  destruct (ls_evaluation st) as [e|] eqn:He; [right | now left].
  destruct (read_loop_tracks _ _ _ _ Hloop) as (seen & Hlines & Hfold).
  pose proof (track_invariant (parsed_evaluations seen)) as Hinv.
  cbn [loop_start ls_evaluation best_depth] in Hfold. rewrite <- Hfold, He in Hinv.
  destruct Hinv as (Hd & Hge & Hdl). rewrite Hev.
  apply deepest_latest_In, filter_In in Hdl. destruct Hdl as [Hin Htr].
  destruct (parsed_evaluation_origin seen e Hin) as (l & Hl & Hinfo).
  split; [|unfold trackable in Htr; now apply Z.leb_le].
  exists l. split; [|exact Hinfo]. rewrite Hlines. apply in_or_app. now left.
Qed.

Lemma prediction_evaluation_origin_witness :
  {| score_type := "mate"; score_value := Int 2; depth := 3 |} = fallback_evaluation 12 \/
  (exists l,
     In l ["info depth 3 score mate 2" ++ newline; "bestmove h5f7" ++ newline] /\
     info_evaluation l =
       Some {| score_type := "mate"; score_value := Int 2; depth := 3 |}) /\
  -1 <= 3.
Proof.
  apply (prediction_evaluation_origin
           (engine ["info depth 3 score mate 2" ++ newline;
                    "bestmove h5f7" ++ newline] 0 "")
           "startpos" 12 None
           {| bestmove := "h5f7"; ponder := None;
              evaluation := {| score_type := "mate"; score_value := Int 2;
                               depth := 3 |} |}).
  vm_compute. reflexivity.
Defined.

(** X9.  [analyze_position] runs the session of [predict_next_move] and
    returns the evaluation of its prediction, raising whatever it raises; so
    it needs a best move too: when the output ends without a [bestmove]
    line and the process exits with code 0, it raises that no best move was
    reported even though evaluations were tracked. *)
Theorem analyze_position_needs_bestmove :
  (forall popen fen depth moves,
     analyze_position popen fen depth moves =
     match predict_next_move popen fen depth moves with
     | Ok prediction => Ok (evaluation prediction)
     | Raise e => Raise e
     end) /\
  (forall p fen depth moves st rest err,
     stdin_present p = true -> stdout_present p = true ->
     stdin_accepts p 8 ->
     Forall (fun l => is_bestmove_line l = false) (stdout_lines p) ->
     read_loop (stdout_lines p) loop_start = Ok (st, rest) ->
     exit p = Some (0, err) ->
     analyze_position (Ok p) fen depth moves =
     Raise (RuntimeError "Stockfish did not report a best move")).
Proof.
  split; [reflexivity|].
  intros p fen depth moves st rest err Hin Hout Hacc Hall Hloop Hexit.
  unfold analyze_position.
  rewrite (query_engine_exit_zero p fen depth moves st rest err) by assumption.
  destruct (read_loop_no_bestmove _ _ _ _ Hall Hloop) as (_ & Hbm & _).
  now rewrite Hbm.
Qed.

Lemma analyze_position_needs_bestmove_witness :
  analyze_position
    (Ok (engine ["info depth 7 score cp 31" ++ newline;
                 "info depth 8 score cp 28" ++ newline] 0 ""))
    "startpos" 8 None =
  Raise (RuntimeError "Stockfish did not report a best move").
Proof.
  apply (proj2 analyze_position_needs_bestmove
           (engine ["info depth 7 score cp 31" ++ newline;
                    "info depth 8 score cp 28" ++ newline] 0 "")
           "startpos" 8 None
           {| ls_bestmove := None; ls_ponder := None;
              ls_evaluation :=
                Some {| score_type := "cp";
                        score_value := Float (S754_finite false 5044031582654956 (-54));
                        depth := 8 |};
              best_depth := 8 |} [] "");
    first [reflexivity | exact I | repeat constructor].
Defined.

(** ** Failures of the pipes and of the wait *)

(** X10.  When the process has not exited by the deadline of the wait, the
    call raises [TimeoutExpired] after the commands of the script and [quit]
    were written, whatever the loop recorded, so a best move already read is
    lost; the process is killed if [poll()] finds it running, and has the
    return code [poll()] found otherwise. *)
Theorem timeout_raises_after_quit :
  forall p fen depth moves commands st rest,
    build_commands fen depth moves = Some commands ->
    stdin_present p = true -> stdout_present p = true ->
    stdin_accepts p 8 ->
    read_loop (stdout_lines p) loop_start = Ok (st, rest) ->
    exit p = None ->
    _query_engine (Ok p) fen depth moves =
    (Raise TimeoutExpired,
     {| written := map (fun c => c ++ newline) commands ++ ["quit" ++ newline];
        stdin_calls := 8; returncode := poll_on_error p;
        killed := running_on_error p |}).
Proof.
  intros p fen depth moves commands st rest Hcmd Hin Hout Hacc Hloop Hexit.
  rewrite (build_commands_inv _ _ _ _ Hcmd), script_text_commands.
  cbn [_query_engine]. unfold run_session. rewrite Hin, Hout. cbn [negb orb].
  unfold mbind at 1. unfold finally. unfold mbind at 1.
  rewrite send_script_ok by (eapply stdin_accepts_le; [|exact Hacc]; lia).
  unfold converse, mbind, lift. rewrite Hloop.
  rewrite stdin_write_ok
    by (cbn [stdin_calls]; eapply stdin_accepts_le; [|exact Hacc]; lia).
  rewrite stdin_flush_ok by (cbn [stdin_calls]; exact Hacc).
  unfold communicate. rewrite Hexit. unfold kill_if_running, running_on_error.
  cbn [returncode written stdin_calls killed].
  destruct (poll_on_error p); reflexivity.
Qed.

Lemma timeout_raises_after_quit_witness :
  _query_engine
    (Ok {| stdin_present := true; stdout_present := true;
           stdin_budget := Some 8%nat;
           stdout_lines := ["bestmove e2e4" ++ newline];
           exit := None; poll_on_error := Some (-9) |})
    "startpos" 12 None =
  (Raise TimeoutExpired,
   {| written := ["uci" ++ newline; "isready" ++ newline; "ucinewgame" ++ newline;
                  "position startpos" ++ newline; "go depth 12" ++ newline;
                  "quit" ++ newline];
      stdin_calls := 8; returncode := Some (-9); killed := false |}).
Proof.
  apply (timeout_raises_after_quit
           {| stdin_present := true; stdout_present := true;
              stdin_budget := Some 8%nat;
              stdout_lines := ["bestmove e2e4" ++ newline];
              exit := None; poll_on_error := Some (-9) |}
           "startpos" 12 None
           ["uci"; "isready"; "ucinewgame"; "position startpos"; "go depth 12"]
           {| ls_bestmove := Some "e2e4"; ls_ponder := None;
              ls_evaluation := None; best_depth := -1 |} []);
    first [reflexivity | cbn; lia].
Defined.

Lemma write_commands_breaks p k commands : forall w,
  stdin_budget p = Some k ->
  (stdin_calls w <= k)%nat ->
  (k < stdin_calls w + List.length commands)%nat ->
  write_commands p commands w =
  (Raise BrokenPipeError,
   {| written := written w ++
                 map (fun c => c ++ newline) (firstn (k - stdin_calls w) commands);
      stdin_calls := S k; returncode := returncode w; killed := killed w |}).
Proof.
  induction commands as [|c cs IH]; intros w Hb Hle Hlt;
    cbn [List.length] in Hlt; [lia|].
  cbn [write_commands]. unfold mbind, stdin_write, stdin_open. rewrite Hb.
  destruct (Nat.ltb_spec (stdin_calls w) k) as [Hopen|Hclosed].
  - rewrite IH; cbn [stdin_calls written returncode killed]; try lia; [|exact Hb].
    replace (k - stdin_calls w)%nat with (S (k - S (stdin_calls w))) by lia.
    cbn [firstn map]. now rewrite <- app_assoc.
  - replace (k - stdin_calls w)%nat with 0%nat by lia.
    cbn [firstn map]. rewrite app_nil_r.
    replace (stdin_calls w) with k by lia. reflexivity.
Qed.

(** X11.  A pipe that breaks before the script is through: when the pipe
    takes [k] calls, fewer than the six of the script (five [write] calls
    and a [flush]), the call raises [BrokenPipeError] whatever the engine
    would have printed; the [write] calls that returned are those of the
    first [k] commands, the failing call is the last one made, nothing is
    read, and the process is killed if [poll()] finds it running and has the
    return code [poll()] found otherwise. *)
Theorem broken_pipe_during_script :
  forall p k fen depth moves commands,
    build_commands fen depth moves = Some commands ->
    stdin_present p = true -> stdout_present p = true ->
    stdin_budget p = Some k -> (k < 6)%nat ->
    _query_engine (Ok p) fen depth moves =
    (Raise BrokenPipeError,
     {| written := map (fun c => c ++ newline) (firstn k commands);
        stdin_calls := S k; returncode := poll_on_error p;
        killed := running_on_error p |}).
Proof.
  intros p k fen depth moves commands Hcmd Hin Hout Hb Hk.
  rewrite (build_commands_inv _ _ _ _ Hcmd).
  cbn [_query_engine]. unfold run_session. rewrite Hin, Hout. cbn [negb orb].
  unfold mbind at 1. unfold finally. unfold mbind at 1.
  unfold send_script, mbind at 1.
  destruct (Nat.eq_dec k 5) as [->|Hne].
  - rewrite write_commands_ok
      by (unfold stdin_accepts; rewrite Hb, commands_of_eq; cbn; lia).
    unfold stdin_flush, stdin_open. rewrite Hb, commands_of_eq.
    cbn [io_start stdin_calls List.length Nat.add Nat.ltb Nat.leb written
         returncode killed].
    unfold kill_if_running, running_on_error.
    cbn [returncode written stdin_calls killed].
    destruct (poll_on_error p); reflexivity.
  - rewrite (write_commands_breaks p k)
      by (try exact Hb; rewrite ?commands_of_eq; cbn; lia).
    unfold kill_if_running, running_on_error.
    cbn [returncode written stdin_calls killed io_start].
    rewrite Nat.sub_0_r. cbn [app].
    destruct (poll_on_error p); reflexivity.
Qed.

Lemma broken_pipe_during_script_witness :
  _query_engine
    (Ok {| stdin_present := true; stdout_present := true;
           stdin_budget := Some 5%nat;
           stdout_lines := ["bestmove e2e4" ++ newline];
           exit := Some (0, ""); poll_on_error := Some 1 |})
    "startpos" 12 None =
  (Raise BrokenPipeError,
   {| written := ["uci" ++ newline; "isready" ++ newline; "ucinewgame" ++ newline;
                  "position startpos" ++ newline; "go depth 12" ++ newline];
      stdin_calls := 6; returncode := Some 1; killed := false |}).
Proof.
  apply (broken_pipe_during_script
           {| stdin_present := true; stdout_present := true;
              stdin_budget := Some 5%nat;
              stdout_lines := ["bestmove e2e4" ++ newline];
              exit := Some (0, ""); poll_on_error := Some 1 |}
           5%nat "startpos" 12 None
           ["uci"; "isready"; "ucinewgame"; "position startpos"; "go depth 12"]);
    first [reflexivity | lia].
Defined.

(** ** The parser, read backwards *)

Lemma index_Some_split x : forall l i,
  index x l = Some i ->
  exists pre post,
    l = (pre ++ x :: post)%list /\ ~ In x pre /\ List.length pre = i.
Proof.
  induction l as [|y l IH]; intros i H; cbn [index] in H; [discriminate|].
  destruct (String.eqb_spec y x) as [->|Hne].
  - injection H as <-. exists [], l. repeat split. intros [].
  - destruct (index x l) as [j|] eqn:Hj; [|discriminate].
    injection H as <-. destruct (IH j eq_refl) as (pre & post & -> & Hnot & Hlen).
    exists (y :: pre), post. repeat split.
    + intros [Heq|Hin]; [now apply Hne | now apply Hnot].
    + cbn [List.length]. now rewrite Hlen.
Qed.

Lemma score_tokens_inv tokens T V :
  score_tokens tokens = Some (T, V) ->
  exists pre post,
    tokens = (pre ++ "score" :: T :: V :: post)%list /\ ~ In "score" pre.
Proof.
  unfold score_tokens. intros H.
  destruct (index "score" tokens) as [i|] eqn:Hi; [|discriminate].
  destruct (index_Some_split _ _ _ Hi) as (pre & post & -> & Hnot & <-).
  rewrite (item_after pre ("score" :: post) 1),
          (item_after pre ("score" :: post) 2) in H.
  unfold item in H. cbn [nth_error] in H.
  destruct post as [|t [|v post]]; cbn [nth_error] in H; try discriminate.
  injection H as <- <-. now exists pre, post.
Qed.

(** X12.  Every evaluation the parser returns comes from the first [score]
    token of the line: its score type is the token after it, and its value
    is the next token read as an integer divided by 100.0 for [cp], as an
    integer kept as an [int] (not a float) for [mate], and as a float for
    any other type. *)
Theorem parsed_evaluation_comes_from_first_score :
  forall line e,
    _parse_evaluation line = Ok (Some e) ->
    exists pre T V post,
      split line = (pre ++ "score" :: T :: V :: post)%list /\
      ~ In "score" pre /\
      score_type e = T /\
      (T = "cp" ->
       exists v x, int_of_str V = Some v /\
                   int_truediv_float v float_100 = Ok x /\
                   score_value e = Float x) /\
      (T = "mate" ->
       exists v, int_of_str V = Some v /\ score_value e = Int v) /\
      (T <> "cp" -> T <> "mate" ->
       exists x, float_of_str V = Some x /\ score_value e = Float x).
Proof.
  intros line e. unfold _parse_evaluation.
  destruct (negb _); [discriminate|].
  destruct (score_tokens (split line)) as [[T V]|] eqn:Hst; [|discriminate].
  destruct (score_tokens_inv _ _ _ Hst) as (pre & post & Hsplit & Hnot).
  intros H. exists pre, T, V, post. split; [exact Hsplit|]. split; [exact Hnot|].
  unfold evaluation_of in H.
  destruct (String.eqb_spec T "cp") as [->|Hcp].
  - destruct (int_of_str V) as [v|] eqn:HV; [|discriminate]. unfold bind in H.
    destruct (int_truediv_float v float_100) as [x|] eqn:Hx; [|discriminate].
    injection H as <-. cbn [score_type score_value].
    repeat split; [| intros; discriminate | intros Hc; now contradiction Hc].
    intros _. now exists v, x.
  - destruct (String.eqb_spec T "mate") as [->|Hmate].
    + destruct (int_of_str V) as [v|] eqn:HV; [|discriminate].
      injection H as <-. cbn [score_type score_value].
      repeat split; [intros; discriminate | | intros _ Hm; now contradiction Hm].
      intros _. now exists v.
    + destruct (float_of_str V) as [x|] eqn:HV; [|discriminate].
      injection H as <-. cbn [score_type score_value].
      repeat split; [intros; contradiction | intros; contradiction |].
      intros _ _. now exists x.
Qed.

Lemma parsed_evaluation_comes_from_first_score_witness :
  exists pre T V post,
    split "info depth 11 score mate -4 nodes 9 score cp 7" =
      (pre ++ "score" :: T :: V :: post)%list /\
    ~ In "score" pre /\
    T = "mate" /\
    (T = "mate" -> exists v, int_of_str V = Some v /\ Int (-4) = Int v).
Proof.
  destruct (parsed_evaluation_comes_from_first_score
              "info depth 11 score mate -4 nodes 9 score cp 7"
              {| score_type := "mate"; score_value := Int (-4); depth := 11 |})
    as (pre & T & V & post & Hs & Hnot & HT & _ & Hmate & _).
  - vm_compute. reflexivity.
  - exists pre, T, V, post. cbn [score_type score_value] in *. 
    repeat split; [exact Hs | exact Hnot | now symmetry | exact Hmate].
Defined.

(** X13.  The parser returns nothing exactly in three cases: the line has
    no [score] token; fewer than two tokens follow the first [score]; or the
    token after the score type is not a number of the kind the type asks
    for, an integer literal for [cp] and [mate], a float literal
    otherwise. *)
Theorem parser_returns_none_iff :
  forall line,
    _parse_evaluation line = Ok None <->
    ~ In "score" (split line) \/
    (exists pre tail,
       split line = (pre ++ "score" :: tail)%list /\ ~ In "score" pre /\
       (List.length tail < 2)%nat) \/
    (exists pre T V post,
       split line = (pre ++ "score" :: T :: V :: post)%list /\ ~ In "score" pre /\
       ((T = "cp" \/ T = "mate") /\ int_of_str V = None \/
        T <> "cp" /\ T <> "mate" /\ float_of_str V = None)).
Proof.
  intros line. split.
  - unfold _parse_evaluation.
    destruct (contains "score" (split line)) eqn:Hc; cbn [negb].
    + apply contains_In in Hc. intros H. right.
      unfold score_tokens in H.
      destruct (index "score" (split line)) as [i|] eqn:Hi.
      * destruct (index_Some_split _ _ _ Hi) as (pre & post & Hsplit & Hnot & <-).
        rewrite Hsplit in H.
        rewrite (item_after pre ("score" :: post) 1),
                (item_after pre ("score" :: post) 2) in H.
        unfold item in H. cbn [nth_error] in H.
        destruct post as [|T [|V post]]; cbn [nth_error] in H.
        -- left. exists pre, []. repeat split; [exact Hsplit | exact Hnot | cbn; lia].
        -- left. exists pre, [T]. repeat split; [exact Hsplit | exact Hnot | cbn; lia].
        -- right. exists pre, T, V, post. split; [exact Hsplit|]. split; [exact Hnot|].
           unfold evaluation_of in H.
           destruct (String.eqb_spec T "cp") as [->|Hcp].
           ++ left. split; [now left|].
              destruct (int_of_str V) as [v|]; [|reflexivity]. unfold bind in H.
              destruct (int_truediv_float v float_100); discriminate.
           ++ destruct (String.eqb_spec T "mate") as [->|Hmate].
              ** left. split; [now right|].
                 destruct (int_of_str V); [discriminate | reflexivity].
              ** right. repeat split; try assumption.
                 destruct (float_of_str V); [discriminate | reflexivity].
      * exfalso. clear H. revert Hc Hi. generalize (split line).
        induction l as [|y l IH]; cbn [In index]; [tauto|].
        destruct (String.eqb_spec y "score"); [discriminate|].
        intros [Hy|Hin]; [contradiction|].
        destruct (index "score" l); [discriminate|]. intros _. now apply IH.
    + intros _. left. intros Hin. apply contains_In in Hin. congruence.
  - intros [Hno|[(pre & tail & Hsplit & Hnot & Hlen)|
                 (pre & T & V & post & Hsplit & Hnot & Hbad)]].
    + now apply parse_without_score.
    + now apply (parse_score_truncated line pre tail).
    + apply (parse_score_not_numeric line pre T V post); try assumption.
      * intros HT. destruct Hbad as [[_ H]|(Hcp & Hmate & _)]; [exact H|].
        destruct HT; contradiction.
      * intros Hcp Hmate. destruct Hbad as [[[HT|HT] _]|(_ & _ & H)];
          [contradiction | contradiction | exact H].
Qed.

Lemma parser_returns_none_iff_witness :
  _parse_evaluation "info depth 5 score cp 1.5" = Ok None.
Proof.
  apply (proj2 (parser_returns_none_iff "info depth 5 score cp 1.5")).
  right. right. exists ["info"; "depth"; "5"], "cp", "1.5", [].
  split; [reflexivity|]. split.
  - cbn [In]. intros [H|[H|[H|H]]]; first [discriminate | contradiction].
  - left. split; [now left | reflexivity].
Defined.

Lemma parsed_depth_eq line e :
  _parse_evaluation line = Ok (Some e) -> depth e = depth_of_tokens (split line).
Proof.
  unfold _parse_evaluation. destruct (negb _); [discriminate|].
  destruct (score_tokens (split line)) as [[T V]|]; [|discriminate].
  apply evaluation_of_depth.
Qed.

(** X14.  The depth of a parsed evaluation is read from the token after the
    first [depth] token only: it is that token's integer value, and 0 when
    the line has no [depth] token, when [depth] is the last token, or when
    the token after it is not an integer literal; a later [depth] token is
    never looked at. *)
Theorem parsed_depth_comes_from_first_depth :
  forall line e,
    _parse_evaluation line = Ok (Some e) ->
    (~ In "depth" (split line) -> depth e = 0) /\
    (forall front,
       split line = (front ++ ["depth"])%list -> ~ In "depth" front ->
       depth e = 0) /\
    (forall front tok back,
       split line = (front ++ "depth" :: tok :: back)%list -> ~ In "depth" front ->
       depth e = match int_of_str tok with
                 | Some d => d
                 | None => 0
                 end).
Proof.
  intros line e H. rewrite (parsed_depth_eq line e H). unfold depth_of_tokens.
  repeat split.
  - intros Hnot. now rewrite contains_false.
  - intros front -> Hnot.
    destruct (contains "depth" _); [|reflexivity].
    rewrite index_first by exact Hnot.
    replace (List.length front + 1)%nat with (List.length front + 1 + 0)%nat by lia.
    unfold item. rewrite nth_error_app2 by lia.
    replace (List.length front + 1 + 0 - List.length front)%nat with 1%nat by lia.
    reflexivity.
  - intros front tok back -> Hnot.
    assert (Hc : contains "depth" (front ++ "depth" :: tok :: back) = true)
      by (apply contains_In, in_or_app; right; now left).
    rewrite Hc, index_first by exact Hnot. rewrite item_after.
    unfold item. cbn [nth_error]. reflexivity.
Qed.

Lemma parsed_depth_comes_from_first_depth_witness :
  3 = match int_of_str "3" with Some d => d | None => 0 end.
Proof.
  apply (proj2 (proj2 (parsed_depth_comes_from_first_depth
                         "info depth 3 seldepth 5 score cp 20 depth 9"
                         {| score_type := "cp";
                            score_value := Float (S754_finite false 7205759403792794 (-55));
                            depth := 3 |} ltac:(vm_compute; reflexivity)))
           ["info"] "3"
           ["seldepth"; "5"; "score"; "cp"; "20"; "depth"; "9"]).
  - reflexivity.
  - cbn [In]. intros [H|H]; first [discriminate | contradiction].
Defined.

(** ** Centipawn scores of opposite sign *)

Lemma binary_round_aux_opp mx ex lx :
  binary_round_aux prec emax true mx ex lx =
  SFopp (binary_round_aux prec emax false mx ex lx).
Proof.
  unfold binary_round_aux.
  destruct (shr_fexp prec emax mx ex lx) as [mrs' e'].
  destruct (shr_fexp prec emax _ e' loc_Exact) as [mrs'' e''].
  destruct (shr_m mrs''); [reflexivity | | reflexivity].
  destruct (e'' <=? emax - prec); reflexivity.
Qed.

Lemma int_truediv_float_opp m x :
  int_truediv_float (Zpos m) float_100 = Ok x ->
  int_truediv_float (Zneg m) float_100 = Ok (float_neg x).
Proof.
  unfold int_truediv_float, float_of_int, binary_normalize, bind, binary_round.
  destruct (shl_align m 0 _) as [mz ez].
  rewrite binary_round_aux_opp.
  destruct (binary_round_aux prec emax false (Z.pos mz) ez loc_Exact) as [s|s| |s m' e'];
    cbn [SFopp]; try discriminate.
  - unfold float_truediv, float_100. cbn [is_zero SFdiv xorb negb].
    intros H. injection H as <-. now destruct s.
  - unfold float_truediv, float_100. cbn [is_zero SFdiv].
    intros H. injection H as <-. reflexivity.
  - unfold float_truediv, float_100. cbn [is_zero SFdiv].
    destruct (SFdiv_core_binary prec emax (Z.pos m') e' (Z.pos 7036874417766400) (-46))
      as [[q eq] l].
    intros H. injection H as <-. unfold float_neg.
    assert (Hbra : binary_round_aux prec emax false q eq l =
                   SFopp (binary_round_aux prec emax true q eq l)).
    { rewrite binary_round_aux_opp.
      destruct (binary_round_aux prec emax false q eq l) as [[]|[]| |[] ? ?];
        reflexivity. }
    destruct s; cbn [xorb negb];
      [rewrite <- Hbra | rewrite <- binary_round_aux_opp]; reflexivity.
Qed.

Lemma first_occurrence x (l : list string) :
  In x l -> exists pre post, l = (pre ++ x :: post)%list /\ ~ In x pre.
Proof.
  induction l as [|y l IH]; [intros []|].
  destruct (String.eqb_spec y x) as [->|Hne].
  - intros _. exists [], l. split; [reflexivity | intros []].
  - intros [Hy|Hin]; [contradiction|].
    destruct (IH Hin) as (pre & post & -> & Hnot).
    exists (y :: pre), post. split; [reflexivity|].
    intros [Heq|Hin']; [now apply Hne | now apply Hnot].
Qed.

(** The depth does not depend on the score value, an integer literal. *)
Lemma depth_of_tokens_score_value pre post V V' v v' :
  int_of_str V = Some v -> int_of_str V' = Some v' ->
  depth_of_tokens (pre ++ "score" :: "cp" :: V :: post) =
  depth_of_tokens (pre ++ "score" :: "cp" :: V' :: post).
Proof.
  intros HV HV'.
  destruct (int_of_str_not_word V v HV) as [_ HVd].
  destruct (int_of_str_not_word V' v' HV') as [_ HVd'].
  unfold depth_of_tokens.
  destruct (in_dec string_dec "depth" pre) as [Hpre|Hpre].
  - destruct (first_occurrence _ _ Hpre) as (a & b & -> & Ha).
    rewrite <- !app_assoc. cbn [app].
    assert (Hc : forall t, contains "depth" (a ++ "depth" :: t) = true)
      by (intros t; apply contains_In, in_or_app; right; now left).
    rewrite !Hc, !index_first by exact Ha. rewrite !item_after.
    unfold item. cbn [nth_error]. destruct b; reflexivity.
  - destruct (in_dec string_dec "depth" post) as [Hpost|Hpost].
    + destruct (first_occurrence _ _ Hpost) as (a & b & -> & Ha).
      assert (Hfront : forall W w, int_of_str W = Some w ->
                ~ In "depth" (pre ++ "score" :: "cp" :: W :: a)).
      { intros W w HW Hin. apply in_app_or in Hin.
        destruct Hin as [Hin|Hin]; [now apply Hpre|].
        cbn [In] in Hin. destruct Hin as [H|[H|[H|H]]];
          [discriminate | discriminate | | now apply Ha].
        destruct (int_of_str_not_word W w HW) as [_ Hd]. now apply Hd. }
      replace (pre ++ "score" :: "cp" :: V :: a ++ "depth" :: b)%list
        with ((pre ++ "score" :: "cp" :: V :: a) ++ "depth" :: b)%list
        by (rewrite <- app_assoc; reflexivity).
      replace (pre ++ "score" :: "cp" :: V' :: a ++ "depth" :: b)%list
        with ((pre ++ "score" :: "cp" :: V' :: a) ++ "depth" :: b)%list
        by (rewrite <- app_assoc; reflexivity).
      assert (Hc : forall f, contains "depth" (f ++ "depth" :: b) = true)
        by (intros f; apply contains_In, in_or_app; right; now left).
      rewrite !Hc.
      rewrite (index_first "depth" _ b (Hfront V v HV)),
              (index_first "depth" _ b (Hfront V' v' HV')).
      rewrite !item_after. reflexivity.
    + assert (Hno : forall W w, int_of_str W = Some w ->
                ~ In "depth" (pre ++ "score" :: "cp" :: W :: post)).
      { intros W w HW Hin. apply in_app_or in Hin.
        destruct Hin as [Hin|Hin]; [now apply Hpre|].
        cbn [In] in Hin. destruct Hin as [H|[H|[H|H]]];
          [discriminate | discriminate | | now apply Hpost].
        destruct (int_of_str_not_word W w HW) as [_ Hd]. now apply Hd. }
      now rewrite (contains_false _ _ (Hno V v HV)),
                  (contains_false _ _ (Hno V' v' HV')).
Qed.

(** X15.  Centipawn scores are symmetric: on two lines that differ only in
    the sign of a non-zero [cp] value, the parser returns the same
    evaluation up to the sign of the score, the second score being exactly
    the negation of the first. *)
Theorem cp_scores_of_opposite_sign :
  forall line line' pre V V' post v e,
    split line = (pre ++ "score" :: "cp" :: V :: post)%list ->
    split line' = (pre ++ "score" :: "cp" :: V' :: post)%list ->
    ~ In "score" pre ->
    int_of_str V = Some v -> int_of_str V' = Some (- v) -> 0 < v ->
    _parse_evaluation line = Ok (Some e) ->
    exists x,
      score_value e = Float x /\
      _parse_evaluation line' =
      Ok (Some {| score_type := "cp"; score_value := Float (float_neg x);
                  depth := depth e |}).
Proof.
  intros line line' pre V V' post v e Hs Hs' Hnot HV HV' Hpos H.
  pose proof (parsed_depth_eq line e H) as Hdepth.
  rewrite (parse_with_score line pre "cp" V post) in H by assumption.
  rewrite (parse_with_score line' pre "cp" V' post) by assumption.
  rewrite Hs', <- (depth_of_tokens_score_value pre post V V' v (- v) HV HV'),
          <- Hs, <- Hdepth.
  unfold evaluation_of in *. cbn [String.eqb Ascii.eqb Bool.eqb] in *.
  rewrite HV in H. rewrite HV'. unfold bind in *.
  destruct v as [|m|m]; try lia.
  destruct (int_truediv_float (Z.pos m) float_100) as [x|] eqn:Hx; [|discriminate].
  injection H as <-. exists x. split; [reflexivity|].
  cbn [Z.opp]. now rewrite (int_truediv_float_opp m x Hx).
Qed.

Lemma cp_scores_of_opposite_sign_witness :
  exists x,
    Float (S754_finite false 4503599627370496 (-54)) = Float x /\
    _parse_evaluation "info depth 4 score cp -25 nodes 7" =
    Ok (Some {| score_type := "cp"; score_value := Float (float_neg x); depth := 4 |}).
Proof.
  apply (cp_scores_of_opposite_sign
           "info depth 4 score cp 25 nodes 7" "info depth 4 score cp -25 nodes 7"
           ["info"; "depth"; "4"] "25" "-25" ["nodes"; "7"] 25
           {| score_type := "cp";
              score_value := Float (S754_finite false 4503599627370496 (-54));
              depth := 4 |});
    try reflexivity.
  cbn [In]. intros [H|[H|[H|H]]]; first [discriminate | contradiction].
Defined.

(** ** The script, as the engine tokenises it *)

Lemma no_space_uint d : no_space (NilEmpty.string_of_uint d) = true.
Proof.
  induction d; cbn [NilEmpty.string_of_uint no_space]; [reflexivity | ..];
    rewrite IHd; reflexivity.
Qed.

Lemma str_of_int_is_token n : is_token (str_of_int n) = true.
Proof.
  unfold str_of_int.
  destruct n as [|p|p]; [reflexivity | |];
    cbn [Z.to_int NilZero.string_of_int];
    pose proof (DecimalPos.Unsigned.to_uint_nonnil p) as Hnil;
    pose proof (no_space_uint (Pos.to_uint p)) as Hns;
    unfold NilZero.string_of_uint;
    destruct (Pos.to_uint p) eqn:Hd; try contradiction;
    cbn [NilEmpty.string_of_uint is_token no_space] in *; exact Hns.
Qed.

Lemma split_after_word w t :
  is_token w = true ->
  split (w ++ String " " t) = w :: split t.
Proof.
  intros Hw. rewrite split_space_app by reflexivity.
  now rewrite (split_one_token w Hw).
Qed.

(** X16.  The script, token by token: for a depth that [str()] renders and
    moves that are non-empty strings without white space, the five commands
    split into [uci], [isready], [ucinewgame], the [position] command, whose
    tokens after [moves] are exactly the moves in order, and [go depth]
    followed by the depth in decimal. *)
Theorem script_tokens :
  forall fen depth moves commands,
    build_commands fen depth moves = Some commands ->
    Forall (fun w => is_token w = true) (moves_given moves) ->
    map split commands =
    [ ["uci"]; ["isready"]; ["ucinewgame"];
      ("position"
       :: (if String.eqb fen "startpos" then ["startpos"] else "fen" :: split fen)
       ++ match moves_given moves with
          | [] => []
          | ms => "moves" :: ms
          end)%list;
      ["go"; "depth"; str_of_int depth] ].
Proof.
  intros fen depth moves commands Hcmd Hall.
  rewrite (build_commands_inv _ _ _ _ Hcmd).
  rewrite commands_of_eq. cbn [map].
  assert (Hgo : split ("go depth " ++ str_of_int depth) = ["go"; "depth"; str_of_int depth]).
  { change ("go depth " ++ str_of_int depth)
      with ("go" ++ String " " ("depth" ++ String " " (str_of_int depth))).
    rewrite !split_after_word by reflexivity.
    now rewrite (split_one_token _ (str_of_int_is_token depth)). }
  rewrite Hgo. do 3 f_equal.
  change (split "uci") with ["uci"]. change (split "isready") with ["isready"].
  change (split "ucinewgame") with ["ucinewgame"].
  do 3 f_equal. f_equal.
  unfold position_command.
  destruct (moves_given moves) as [|m ms] eqn:Hms;
    destruct (String.eqb fen "startpos").
  - reflexivity.
  - change ("position fen " ++ fen)
      with ("position" ++ String " " ("fen" ++ String " " fen)).
    rewrite !split_after_word by reflexivity. now rewrite app_nil_r.
  - change ("position startpos moves " ++ join " " (m :: ms))
      with ("position" ++ String " " ("startpos" ++ String " "
              ("moves" ++ String " " (join " " (m :: ms))))).
    rewrite !split_after_word by reflexivity.
    now rewrite (split_join _ Hall).
  - change ("position fen " ++ fen ++ " moves " ++ join " " (m :: ms))
      with ("position" ++ String " " ("fen" ++ String " "
              (fen ++ String " " ("moves" ++ String " " (join " " (m :: ms)))))).
    rewrite !split_after_word by reflexivity.
    rewrite split_space_app by reflexivity.
    rewrite split_after_word by reflexivity.
    now rewrite (split_join _ Hall).
Qed.

Lemma script_tokens_witness :
  map split [ "uci"; "isready"; "ucinewgame";
              "position fen 8/8/8/8/8/5k2/8/5K1R w - - 0 1 moves h1h3 f3e4";
              "go depth 9" ] =
  [ ["uci"]; ["isready"]; ["ucinewgame"];
    ["position"; "fen"; "8/8/8/8/8/5k2/8/5K1R"; "w"; "-"; "-"; "0"; "1";
     "moves"; "h1h3"; "f3e4"];
    ["go"; "depth"; "9"] ].
Proof.
  apply (script_tokens "8/8/8/8/8/5k2/8/5K1R w - - 0 1" 9 (Some ["h1h3"; "f3e4"])).
  - vm_compute. reflexivity.
  - repeat constructor.
Defined.

(** ** [main] *)

Lemma prediction_ponder_not_empty popen fen depth moves pr :
  predict_next_move popen fen depth moves = Ok pr -> ponder pr <> Some "".
Proof.
  unfold predict_next_move. intros H Hq.
  destruct popen as [p|e]; [|destruct e; discriminate].
  destruct (query_engine_ok_inv p fen depth moves pr H)
    as (_ & _ & _ & st & rest & err & Hloop & _ & _ & Hpo & _).
  destruct (read_loop_moves_are_tokens _ _ _ _ Hloop) as [_ Htok];
    try (cbn; discriminate).
  rewrite Hpo in Hq. specialize (Htok "" Hq). discriminate.
Qed.

(** X17.  When [main] returns, the probe of the container printed [true]
    (in any letter case, white space around it aside), the engine was
    queried with the options of the command line through [docker exec -i]
    on the named container, and what is printed is the best move, the
    ponder move if the prediction has one, then depth, score type and
    score: five lines with a ponder move, four without. *)
Theorem main_report :
  forall str_of_float h args out,
    main str_of_float h args = (Ok tt, out) ->
    exists stdout pr,
      run h ["docker"; "inspect"; "-f"; "{{.State.Running}}"; Cli.container_name args]
        = Ok stdout /\
      lower (strip stdout) = "true" /\
      predict_next_move
        (popen h ["docker"; "exec"; "-i"; Cli.container_name args; "stockfish"])
        (Cli.fen args) (Cli.depth args) (Cli.moves args) = Ok pr /\
      out =
      ("Best move: " ++ bestmove pr)
      :: app match ponder pr with
           | Some q => ["Ponder:     " ++ q]
           | None => []
           end
           [ "Depth:      " ++ str_of_int (depth (evaluation pr));
             "Score type: " ++ score_type (evaluation pr);
             "Score:      " ++ str_of_number str_of_float (score_value (evaluation pr)) ].
Proof.
  intros sf h args out H. unfold main in H.
  change (inspect_argv (new_client (Cli.container_name args)))
    with ["docker"; "inspect"; "-f"; "{{.State.Running}}"; Cli.container_name args] in H.
  change (exec_argv (new_client (Cli.container_name args)))
    with ["docker"; "exec"; "-i"; Cli.container_name args; "stockfish"] in H.
  destruct (run h _) as [stdout|e] eqn:Hrun.
  - cbn [is_service_ready] in H.
    destruct (String.eqb_spec (lower (strip stdout)) "true") as [Htrue|_];
      [|discriminate].
    destruct (predict_next_move _ _ _ _) as [pr|e] eqn:Hpr; [|discriminate].
    injection H as <-. exists stdout, pr.
    split; [reflexivity|]. split; [exact Htrue|]. split; [reflexivity|].
    pose proof (prediction_ponder_not_empty _ _ _ _ _ Hpr) as Hne.
    unfold report, print, append.
    destruct (ponder pr) as [q|]; [|reflexivity].
    destruct (String.eqb_spec q "") as [->|_]; [now elim Hne | reflexivity].
  - destruct e; cbn [is_service_ready] in H; discriminate.
Qed.

Lemma main_report_witness :
  exists stdout pr,
    Ok ("True" ++ newline) = Ok stdout /\
    lower (strip stdout) = "true" /\
    predict_next_move
      (Ok (engine ["info depth 3 score mate 2" ++ newline;
                   "bestmove h5f7 ponder e8f7" ++ newline] 0 ""))
      "startpos" 3 None = Ok pr /\
    ["Best move: h5f7"; "Ponder:     e8f7"; "Depth:      3"; "Score type: mate";
     "Score:      2"] =
    ("Best move: " ++ bestmove pr)
    :: app match ponder pr with
           | Some q => ["Ponder:     " ++ q]
           | None => []
           end
           [ "Depth:      " ++ str_of_int (depth (evaluation pr));
             "Score type: " ++ score_type (evaluation pr);
             "Score:      " ++ str_of_number (fun _ => "0.0") (score_value (evaluation pr)) ].
Proof.
  apply (main_report (fun _ => "0.0")
           {| run := fun _ => Ok ("True" ++ newline);
              popen := fun _ =>
                Ok (engine ["info depth 3 score mate 2" ++ newline;
                            "bestmove h5f7 ponder e8f7" ++ newline] 0 "") |}
           {| Cli.fen := "startpos"; Cli.depth := 3; Cli.moves := None;
              Cli.container_name := "stockfish-engine" |}).
  vm_compute. reflexivity.
Defined.
